(** * PMNS_NSI: the Hamiltonian in matter with non-standard interactions

    A shallow embedding of [src/PMNS_NSI.cxx] (class [OscProb::PMNS_NSI])
    and the properties of its parameter store ([SetNSI], [SetEps],
    [GetEps], the [SetEps_*] wrappers) and of [UpdateHam].

    Layout of the development:
    - [Double]: the arithmetic of the C++ type [double] as an interface;
      everything that does not depend on laws of arithmetic is proved
      for every implementation of it;
    - [complex], [Matrix], [PMNS_NSI]: the data of the class;
    - [Cmd]: the monad of a method body (instance state and what is
      written to [cout]);
    - the methods, translated line by line;
    - [Double_R]: the interface read over the real numbers, used only
      to name the values of the coefficients ([val + 1],
      [val * cos phase], ...);
    - [Double_binary64]: the interface read over IEEE binary64, the
      arithmetic the methods run on. *)

From Stdlib Require Import ZArith Bool List String Ascii Lia.
From Stdlib Require Import DecimalString.
From Stdlib Require Import Reals Lra.
From Stdlib Require PrimFloat FloatOps FloatAxioms SpecFloat.
Import ListNotations.

Set Implicit Arguments.

(** ** Arithmetic of [double] *)

(** The operations of [double] that the source uses.  No law is assumed
    of them. *)
Class Double (D : Type) : Type := {
  d_zero  : D;                 (* 0. *)
  d_one   : D;                 (* the int 1 converted to double *)
  d_two   : D;                 (* the int 2 converted to double *)
  M_SQRT2 : D;                 (* <math.h> *)
  d_add   : D -> D -> D;
  d_sub   : D -> D -> D;
  d_mul   : D -> D -> D;
  d_div   : D -> D -> D;
  d_neg   : D -> D;
  d_cos   : D -> D;
  d_sin   : D -> D;
  d_eqb   : D -> D -> bool     (* operator== *)
}.

(** The constants [kGeV2eV], [kK2] and [kGf] are declared in a header of
    the base class that is not part of the sources; they are taken as
    parameters. *)
Class PhysConst (D : Type) : Type := {
  kGeV2eV : D;
  kK2     : D;
  kGf     : D
}.

(** ** [std::complex<double>] *)

Record complex (D : Type) : Type := Cplx { real : D; imag : D }.

Arguments Cplx {D} _ _.
Arguments real {D} _.
Arguments imag {D} _.

Section ComplexOps.
Context {D : Type} {Ops : Double D}.

(** [complex h = val] *)
Definition c_of_double (x : D) : complex D := Cplx x d_zero.

(** Modelled from the spec: the constant [zero] that [GetEps] returns on
    invalid indices is declared in the absent base-class header; the
    spec calls it the complex zero value. *)
Definition zero : complex D := Cplx d_zero d_zero.

(** [z += x] with [x] a double: only the real part moves. *)
Definition c_add_d (z : complex D) (x : D) : complex D :=
  Cplx (d_add (real z) x) (imag z).

Definition c_add (z w : complex D) : complex D :=
  Cplx (d_add (real z) (real w)) (d_add (imag z) (imag w)).

Definition c_sub (z w : complex D) : complex D :=
  Cplx (d_sub (real z) (real w)) (d_sub (imag z) (imag w)).

(** [z *= w], the product of two complex numbers by the textbook
    formula. *)
Definition c_mul (z w : complex D) : complex D :=
  Cplx (d_sub (d_mul (real z) (real w)) (d_mul (imag z) (imag w)))
       (d_add (d_mul (real z) (imag w)) (d_mul (imag z) (real w))).

(** [z / x] with [x] a double. *)
Definition c_div_d (z : complex D) (x : D) : complex D :=
  Cplx (d_div (real z) x) (d_div (imag z) x).

(** [x * z] with [x] a double: each part is multiplied by [x]. *)
Definition d_mul_c (x : D) (z : complex D) : complex D :=
  Cplx (d_mul (real z) x) (d_mul (imag z) x).

Definition conj (z : complex D) : complex D :=
  Cplx (real z) (d_neg (imag z)).

(** [z == w] *)
Definition c_eqb (z w : complex D) : bool :=
  d_eqb (real z) (real w) && d_eqb (imag z) (imag w).

End ComplexOps.

(** ** Matrices and the instance state *)

(** A [complex m[3][3]], read and written at [int] indices.  The methods
    only ever index it inside [0,2].  An [int] is a [Z] here: the methods
    compare and print indices and do no arithmetic on them. *)
Definition Matrix (D : Type) : Type := Z -> Z -> complex D.

Definition mset {D : Type} (m : Matrix D) (i j : Z) (v : complex D)
  : Matrix D :=
  fun a b => if (a =? i)%Z && (b =? j)%Z then v else m a b.

(** The two fields of [fPath] that [UpdateHam] reads. *)
Record NuPath (D : Type) : Type := MkPath { density : D; zoa : D }.

Arguments MkPath {D} _ _.
Arguments density {D} _.
Arguments zoa {D} _.

(** The fields of a [PMNS_NSI] object that the methods touch: [fEps] is
    its own, the others are inherited. *)
Record PMNS_NSI (D : Type) : Type := MkObj {
  fHms     : Matrix D;
  fHam     : Matrix D;
  fEps     : Matrix D;
  fPath    : NuPath D;
  fEnergy  : D;
  fIsNuBar : bool;
  fGotES   : bool
}.

Arguments MkObj {D} _ _ _ _ _ _ _.
Arguments fHms {D} _.
Arguments fHam {D} _.
Arguments fEps {D} _.
Arguments fPath {D} _.
Arguments fEnergy {D} _.
Arguments fIsNuBar {D} _.
Arguments fGotES {D} _.

Definition set_fGotES {D} (b : bool) (s : PMNS_NSI D) : PMNS_NSI D :=
  MkObj (fHms s) (fHam s) (fEps s) (fPath s) (fEnergy s) (fIsNuBar s) b.

Definition set_fEps {D} (m : Matrix D) (s : PMNS_NSI D) : PMNS_NSI D :=
  MkObj (fHms s) (fHam s) m (fPath s) (fEnergy s) (fIsNuBar s) (fGotES s).

Definition set_fHam {D} (m : Matrix D) (s : PMNS_NSI D) : PMNS_NSI D :=
  MkObj (fHms s) m (fEps s) (fPath s) (fEnergy s) (fIsNuBar s) (fGotES s).

(** Modelled from the spec: [fNumNus] is a field of the absent base
    class; the class is restricted to three flavours and the spec fixes
    the count at 3. *)
Definition fNumNus : Z := 3.

(** ** The monad of a method body *)

(** A method reads and writes the object and appends to [cout]. *)
Definition Cmd (D A : Type) : Type := PMNS_NSI D -> A * PMNS_NSI D * string.

Definition ret {D A} (a : A) : Cmd D A := fun s => (a, s, EmptyString).

Definition bind {D A B} (c : Cmd D A) (k : A -> Cmd D B) : Cmd D B :=
  fun s =>
    let '(a, s1, o1) := c s in
    let '(b, s2, o2) := k a s1 in
    (b, s2, (o1 ++ o2)%string).

Definition get {D} : Cmd D (PMNS_NSI D) := fun s => (s, s, EmptyString).

Definition modify {D} (f : PMNS_NSI D -> PMNS_NSI D) : Cmd D unit :=
  fun s => (tt, f s, EmptyString).

Definition cout {D} (msg : string) : Cmd D unit := fun s => (tt, s, msg).

Declare Scope cmd_scope.
Delimit Scope cmd_scope with cmd.

Notation "x <- c ;; k" := (bind c (fun x => k))
  (at level 61, c at next level, right associativity) : cmd_scope.
Notation "c ;; k" := (bind c (fun _ => k))
  (at level 61, right associativity) : cmd_scope.

(** The three components of a run. *)
Definition result {D A} (r : A * PMNS_NSI D * string) : A := fst (fst r).
Definition state {D A} (r : A * PMNS_NSI D * string) : PMNS_NSI D :=
  snd (fst r).
Definition output {D A} (r : A * PMNS_NSI D * string) : string := snd r.

(** [cout << n] for an [int]. *)
Definition show_int (n : Z) : string := NilEmpty.string_of_int (Z.to_int n).

Definition endl : string := String (ascii_of_nat 10) EmptyString.

(** [for (int i = lo; i < hi; i++) body(i)] *)
Definition for_range {D} (lo hi : Z) (body : Z -> Cmd D unit) : Cmd D unit :=
  fold_right (fun k rest => bind (body (lo + Z.of_nat k)%Z) (fun _ => rest))
             (ret tt) (seq 0 (Z.to_nat (hi - lo))).

(** ** The methods *)

Section Methods.
Context {D : Type} {Ops : Double D} {Consts : PhysConst D}.

Local Open Scope string_scope.
Local Open Scope Z_scope.
Local Open Scope cmd_scope.

(** The opening block of [SetEps] and of [GetEps]: a pair given in
    reverse order is reported and swapped. *)
Definition swap_if_reversed (flvi flvj : Z) : Cmd D (Z * Z) :=
  if flvi >? flvj then
    cout ("First argument should be smaller or equal to second argument"
          ++ endl) ;;
    cout ("Setting reverse order (Eps_" ++ show_int flvj ++ show_int flvi
          ++ "). " ++ endl) ;;
    ret (flvj, flvi)
  else ret (flvi, flvj).

(** The test that guards both methods, on the pair after the swap. *)
Definition rejected (flvi flvj : Z) : bool :=
  (flvi <? 0) || (flvi >? 2) || (flvj <? flvi) || (flvj >? 2).

(** The value [h] that [SetEps] builds. *)
Definition eps_value (flvi flvj : Z) (val phase : D) : complex D :=
  let h := c_of_double val in
  if negb (flvi =? flvj) then c_mul h (Cplx (d_cos phase) (d_sin phase))
  else if flvi =? 0 then c_add_d h d_one
  else h.

Definition SetEps (flvi flvj : Z) (val phase : D) : Cmd D unit :=
  p <- swap_if_reversed flvi flvj ;;
  let '(flvi, flvj) := p in
  if rejected flvi flvj then
    cout ("Eps_" ++ show_int flvi ++ show_int flvj ++ " not valid for "
          ++ show_int fNumNus) ;;
    cout (" neutrinos. Doing nothing." ++ endl)
  else
    let h := eps_value flvi flvj val phase in
    modify (fun s => set_fGotES (fGotES s && c_eqb (fEps s flvi flvj) h) s) ;;
    modify (fun s => set_fEps (mset (fEps s) flvi flvj h) s).

Definition GetEps (flvi flvj : Z) : Cmd D (complex D) :=
  p <- swap_if_reversed flvi flvj ;;
  let '(flvi, flvj) := p in
  if rejected flvi flvj then
    cout ("Eps_" ++ show_int flvi ++ show_int flvj ++ " not valid for "
          ++ show_int fNumNus) ;;
    cout (" neutrinos. Returning 0." ++ endl) ;;
    ret zero
  else
    s <- get ;;
    ret (fEps s flvi flvj).

Definition SetNSI (eps_ee eps_emu eps_etau eps_mumu eps_mutau eps_tautau
                   delta_emu delta_etau delta_mutau : D) : Cmd D unit :=
  SetEps 0 0 eps_ee d_zero ;;
  SetEps 1 1 eps_mumu d_zero ;;
  SetEps 2 2 eps_tautau d_zero ;;
  SetEps 0 1 eps_emu delta_emu ;;
  SetEps 0 2 eps_etau delta_etau ;;
  SetEps 1 2 eps_mutau delta_mutau.

Definition SetEps_ee (a : D) : Cmd D unit := SetEps 0 0 a d_zero.
Definition SetEps_mumu (a : D) : Cmd D unit := SetEps 1 1 a d_zero.
Definition SetEps_tautau (a : D) : Cmd D unit := SetEps 2 2 a d_zero.
Definition SetEps_emu (a phi : D) : Cmd D unit := SetEps 0 1 a phi.
Definition SetEps_etau (a phi : D) : Cmd D unit := SetEps 0 2 a phi.
Definition SetEps_mutau (a phi : D) : Cmd D unit := SetEps 1 2 a phi.

(** [2 * kGeV2eV*fEnergy] *)
Definition lv_of (s : PMNS_NSI D) : D :=
  d_mul (d_mul d_two kGeV2eV) (fEnergy s).

(** [kK2*M_SQRT2*kGf], then [*= fPath.density * fPath.zoa] *)
Definition kr2GNe_of (s : PMNS_NSI D) : D :=
  d_mul (d_mul (d_mul kK2 M_SQRT2) kGf)
        (d_mul (density (fPath s)) (zoa (fPath s))).

(** The assignment in the body of the two loops. *)
Definition ham_entry (lv kr2GNe : D) (i j : Z) : Cmd D unit :=
  modify (fun s =>
    if negb (fIsNuBar s) then
      set_fHam (mset (fHam s) i j
                  (c_add (c_div_d (fHms s i j) lv)
                         (d_mul_c kr2GNe (fEps s i j)))) s
    else
      set_fHam (mset (fHam s) i j
                  (conj (c_sub (c_div_d (fHms s i j) lv)
                               (d_mul_c kr2GNe (fEps s i j))))) s).

Definition UpdateHam : Cmd D unit :=
  s <- get ;;
  let lv := lv_of s in
  let kr2GNe := kr2GNe_of s in
  for_range 0 fNumNus (fun i =>
    for_range i fNumNus (fun j =>
      ham_entry lv kr2GNe i j)).

End Methods.

(** ** Construction *)

Section Constructor.
Context {D : Type} {Ops : Double D}.

(** [PMNS_NSI() : PMNS_Fast(), fEps() { SetStdPath(); SetNSI(0.,...); }]

    The base-class constructor and [SetStdPath] are not part of the
    sources and, being members of the base class, cannot reach [fEps];
    the inherited fields as they leave them are the argument
    [inherited].  [fEps()] value-initialises the array. *)
Definition new_PMNS_NSI (inherited : PMNS_NSI D)
  : unit * PMNS_NSI D * string :=
  SetNSI d_zero d_zero d_zero d_zero d_zero d_zero d_zero d_zero d_zero
    (set_fEps (fun _ _ => Cplx d_zero d_zero) inherited).

End Constructor.

(** ** Sequences of calls *)

(** A call of one of the public methods, with its arguments. *)
Inductive Call (D : Type) : Type :=
  | CallSetNSI (eps_ee eps_emu eps_etau eps_mumu eps_mutau eps_tautau
                delta_emu delta_etau delta_mutau : D)
  | CallSetEps (flvi flvj : Z) (val phase : D)
  | CallGetEps (flvi flvj : Z)
  | CallSetEps_ee (a : D)
  | CallSetEps_mumu (a : D)
  | CallSetEps_tautau (a : D)
  | CallSetEps_emu (a phi : D)
  | CallSetEps_etau (a phi : D)
  | CallSetEps_mutau (a phi : D)
  | CallUpdateHam.

Arguments CallGetEps {D} _ _.
Arguments CallUpdateHam {D}.

Section Traces.
Context {D : Type} {Ops : Double D} {Consts : PhysConst D}.

Local Open Scope cmd_scope.

Definition run_call (c : Call D) : Cmd D unit :=
  match c with
  | CallSetNSI a b c d e f g h i => SetNSI a b c d e f g h i
  | CallSetEps i j v p => SetEps i j v p
  | CallGetEps i j => GetEps i j ;; ret tt
  | CallSetEps_ee a => SetEps_ee a
  | CallSetEps_mumu a => SetEps_mumu a
  | CallSetEps_tautau a => SetEps_tautau a
  | CallSetEps_emu a p => SetEps_emu a p
  | CallSetEps_etau a p => SetEps_etau a p
  | CallSetEps_mutau a p => SetEps_mutau a p
  | CallUpdateHam => UpdateHam
  end.

Fixpoint run_trace (t : list (Call D)) : Cmd D unit :=
  match t with
  | [] => ret tt
  | c :: t' => run_call c ;; run_trace t'
  end.

Definition is_GetEps (c : Call D) : bool :=
  match c with CallGetEps _ _ => true | _ => false end.

(** The trace with its [GetEps] calls taken out. *)
Definition erase_GetEps (t : list (Call D)) : list (Call D) :=
  filter (fun c => negb (is_GetEps c)) t.

End Traces.

(** ** The arithmetic read over the real numbers *)

(** An idealisation: exact, total operations.  What [UpdateHam]
    computes is stated for every [Double] and never through this
    instance, since the real numbers regroup products and divide by
    zero in ways binary64 does not. *)
#[export] Instance Double_R : Double R := {
  d_zero  := 0%R;
  d_one   := 1%R;
  d_two   := 2%R;
  M_SQRT2 := sqrt 2;
  d_add   := Rplus;
  d_sub   := Rminus;
  d_mul   := Rmult;
  d_div   := Rdiv;
  d_neg   := Ropp;
  d_cos   := cos;
  d_sin   := sin;
  d_eqb   := fun x y => if Req_dec_T x y then true else false
}.

(** The diagonal matrix [diag(1,0,0)]. *)
Definition diag100 : Matrix R :=
  fun i j => if (i =? 0)%Z && (j =? 0)%Z then Cplx 1%R 0%R else Cplx 0%R 0%R.


(** ** A sample object

    The scenario of the specification: density 2.6, electron fraction
    0.5, energy 1 GeV, neutrino mode, a nonzero [fHms], no NSI.  The
    values of the three physical constants are placeholders: no
    statement below depends on them. *)

Definition sample_const : PhysConst R :=
  {| kGeV2eV := 1000000000%R; kK2 := 1%R; kGf := 1%R |}.

Definition sample_Hms : Matrix R :=
  fun i j => Cplx (IZR (i + j)) (IZR (j - i)).

Definition sample_obj : PMNS_NSI R :=
  MkObj sample_Hms (fun _ _ => zero) diag100
        (MkPath 2.6%R 0.5%R) 1%R false false.

(** The sample object once the propagation engine has solved the
    eigensystem and set the flag. *)
Definition sample_solved : PMNS_NSI R := set_fGotES true sample_obj.

(** The sample object and its antineutrino twin in vacuum. *)
Definition sample_vacuum : PMNS_NSI R :=
  MkObj sample_Hms (fun _ _ => zero) diag100
        (MkPath 0%R 0.5%R) 1%R false false.

Definition sample_vacuum_bar : PMNS_NSI R :=
  MkObj sample_Hms (fun _ _ => zero) diag100
        (MkPath 0%R 0.5%R) 1%R true false.

(** ** The arithmetic read over IEEE binary64 *)

Section Binary64.
Import PrimFloat.
Variables fcos fsin : float -> float.

(** The instance of the machine: [cos] and [sin] come from the C
    library and are arguments here. *)
Definition Double_binary64 : Double float := {|
  d_zero  := 0%float;
  d_one   := 1%float;
  d_two   := 2%float;
  M_SQRT2 := 0x1.6a09e667f3bcdp+0%float;
  d_add   := PrimFloat.add;
  d_sub   := PrimFloat.sub;
  d_mul   := PrimFloat.mul;
  d_div   := PrimFloat.div;
  d_neg   := PrimFloat.opp;
  d_cos   := fcos;
  d_sin   := fsin;
  d_eqb   := PrimFloat.eqb
|}.

Definition sample_const64 : PhysConst float :=
  {| kGeV2eV := 1000000000%float; kK2 := 1%float; kGf := 1%float |}.

(** The sample object in binary64, with a solved eigensystem; the
    density is the binary64 number nearest to 2.6. *)
Definition sample_obj64 : PMNS_NSI float :=
  MkObj (fun _ _ => Cplx 1%float 0%float)
        (fun _ _ => Cplx 0%float 0%float)
        (fun i j => if (i =? 0)%Z && (j =? 0)%Z
                    then Cplx 1%float 0%float else Cplx 0%float 0%float)
        (MkPath 0x1.4cccccccccccdp+1%float 0.5%float) 1%float false true.

(** The same object in antineutrino mode. *)
Definition sample_bar64 : PMNS_NSI float :=
  MkObj (fun _ _ => Cplx 1%float 0%float)
        (fun _ _ => Cplx 0%float 0%float)
        (fun i j => if (i =? 0)%Z && (j =? 0)%Z
                    then Cplx 1%float 0%float else Cplx 0%float 0%float)
        (MkPath 0x1.4cccccccccccdp+1%float 0.5%float) 1%float true true.

End Binary64.

(** * Properties *)

(** ** Running the monad *)

Section RunLemmas.
Context {D : Type} {Ops : Double D}.

Local Open Scope Z_scope.

Lemma state_bind {A B} (c : Cmd D A) (k : A -> Cmd D B) (s : PMNS_NSI D) :
  state (bind c k s) = state (k (result (c s)) (state (c s))).
Proof.
  unfold bind, state, result.
  destruct (c s) as [[a s1] o1]; simpl.
  destruct (k a s1) as [[b s2] o2]; reflexivity.
Qed.

Lemma result_bind {A B} (c : Cmd D A) (k : A -> Cmd D B) (s : PMNS_NSI D) :
  result (bind c k s) = result (k (result (c s)) (state (c s))).
Proof.
  unfold bind, state, result.
  destruct (c s) as [[a s1] o1]; simpl.
  destruct (k a s1) as [[b s2] o2]; reflexivity.
Qed.

Lemma swap_state (flvi flvj : Z) (s : PMNS_NSI D) :
  state (swap_if_reversed flvi flvj s) = s.
Proof. unfold swap_if_reversed. destruct (flvi >? flvj); reflexivity. Qed.

Lemma swap_result (flvi flvj : Z) (s : PMNS_NSI D) :
  result (swap_if_reversed flvi flvj s) = (Z.min flvi flvj, Z.max flvi flvj).
Proof.
  unfold swap_if_reversed.
  destruct (Z.gtb_spec flvi flvj) as [Hgt | Hle]; cbn.
  - rewrite Z.min_r, Z.max_l by lia; reflexivity.
  - rewrite Z.min_l, Z.max_r by lia; reflexivity.
Qed.

(** What a call of [SetEps] does to the object. *)
Lemma SetEps_state (flvi flvj : Z) (val phase : D) (s : PMNS_NSI D) :
  state (SetEps flvi flvj val phase s) =
    let a := Z.min flvi flvj in
    let b := Z.max flvi flvj in
    if rejected a b then s
    else
      let h := eps_value a b val phase in
      set_fEps (mset (fEps s) a b h)
               (set_fGotES (fGotES s && c_eqb (fEps s a b) h) s).
Proof.
  unfold SetEps. rewrite state_bind, swap_state, swap_result.
  cbv zeta. destruct (rejected _ _); reflexivity.
Qed.

Lemma GetEps_state (flvi flvj : Z) (s : PMNS_NSI D) :
  state (GetEps flvi flvj s) = s.
Proof.
  unfold GetEps. rewrite state_bind, swap_state, swap_result.
  destruct (rejected _ _); reflexivity.
Qed.

Lemma GetEps_result (flvi flvj : Z) (s : PMNS_NSI D) :
  result (GetEps flvi flvj s) =
    let a := Z.min flvi flvj in
    let b := Z.max flvi flvj in
    if rejected a b then zero else fEps s a b.
Proof.
  unfold GetEps. rewrite result_bind, swap_state, swap_result.
  cbv zeta. destruct (rejected _ _); reflexivity.
Qed.

Lemma rejected_false_iff (a b : Z) :
  rejected a b = false <-> 0 <= a <= b /\ b <= 2.
Proof. unfold rejected. rewrite !orb_false_iff. lia. Qed.

Lemma rejected_min_max (i j : Z) :
  rejected (Z.min i j) (Z.max i j) = false <-> 0 <= i <= 2 /\ 0 <= j <= 2.
Proof. rewrite rejected_false_iff. lia. Qed.

Lemma mset_eq (m : Matrix D) (i j : Z) (v : complex D) :
  mset m i j v i j = v.
Proof. unfold mset. rewrite !Z.eqb_refl. reflexivity. Qed.

Lemma mset_neq (m : Matrix D) (i j a b : Z) (v : complex D) :
  (a, b) <> (i, j) -> mset m i j v a b = m a b.
Proof.
  intros Hne. unfold mset.
  destruct (Z.eqb_spec a i), (Z.eqb_spec b j); subst; simpl;
    try reflexivity.
  contradiction Hne; reflexivity.
Qed.

End RunLemmas.

(** ** What [UpdateHam] computes *)

Section UpdateHamLemmas.
Context {D : Type} {Ops : Double D} {Consts : PhysConst D}.

Local Open Scope Z_scope.

(** The two loops unrolled: six assignments, in the order of the
    source, and nothing else. *)
Lemma UpdateHam_unrolled (s : PMNS_NSI D) :
  UpdateHam s =
    let lv := lv_of s in
    let k := kr2GNe_of s in
    let e := fun i j =>
      if negb (fIsNuBar s)
      then c_add (c_div_d (fHms s i j) lv) (d_mul_c k (fEps s i j))
      else conj (c_sub (c_div_d (fHms s i j) lv) (d_mul_c k (fEps s i j)))
    in
    (tt,
     set_fHam
       (mset (mset (mset (mset (mset (mset (fHam s)
          0 0 (e 0 0)) 0 1 (e 0 1)) 0 2 (e 0 2))
          1 1 (e 1 1)) 1 2 (e 1 2)) 2 2 (e 2 2)) s,
     EmptyString).
Proof.
  destruct s as [hms ham eps path en bar es].
  destruct bar; reflexivity.
Qed.

Lemma upper_cases (i j : Z) :
  0 <= i <= j -> j <= 2 ->
  (i, j) = (0, 0) \/ (i, j) = (0, 1) \/ (i, j) = (0, 2) \/
  (i, j) = (1, 1) \/ (i, j) = (1, 2) \/ (i, j) = (2, 2).
Proof.
  intros Hij Hj.
  assert (Hi : i = 0 \/ i = 1 \/ i = 2) by lia.
  assert (Hj' : j = 0 \/ j = 1 \/ j = 2) by lia.
  destruct Hi as [-> | [-> | ->]], Hj' as [-> | [-> | ->]];
    try lia; tauto.
Qed.

(** Every entry on or above the diagonal receives the value of the
    branch selected by [fIsNuBar], computed from the fields as they
    were on entry. *)
Lemma UpdateHam_upper (s : PMNS_NSI D) (i j : Z) :
  0 <= i <= j -> j <= 2 ->
  fHam (state (UpdateHam s)) i j =
    if negb (fIsNuBar s)
    then c_add (c_div_d (fHms s i j) (lv_of s))
               (d_mul_c (kr2GNe_of s) (fEps s i j))
    else conj (c_sub (c_div_d (fHms s i j) (lv_of s))
                     (d_mul_c (kr2GNe_of s) (fEps s i j))).
Proof.
  intros Hij Hj. rewrite UpdateHam_unrolled.
  destruct (upper_cases Hij Hj) as [E | [E | [E | [E | [E | E]]]]];
    injection E as -> ->; reflexivity.
Qed.

(** No other entry is written. *)
Lemma UpdateHam_other (s : PMNS_NSI D) (i j : Z) :
  ~ (0 <= i <= j /\ j <= 2) ->
  fHam (state (UpdateHam s)) i j = fHam s i j.
Proof.
  intros Hout. rewrite UpdateHam_unrolled. cbv zeta.
  unfold state, set_fHam; simpl.
  rewrite !mset_neq; [reflexivity | intros E; injection E; lia ..].
Qed.

(** Every field but [fHam] is left as it was. *)
Lemma UpdateHam_frame (s : PMNS_NSI D) :
  let s' := state (UpdateHam s) in
  fHms s' = fHms s /\ fEps s' = fEps s /\ fPath s' = fPath s /\
  fEnergy s' = fEnergy s /\ fIsNuBar s' = fIsNuBar s /\
  fGotES s' = fGotES s.
Proof. rewrite UpdateHam_unrolled. repeat split. Qed.

End UpdateHamLemmas.

(** ** The Hamiltonian, for any arithmetic *)

Section Hamiltonian.
Context {D : Type} {Ops : Double D} {Consts : PhysConst D}.

Local Open Scope Z_scope.

(** C1. In neutrino mode ([fIsNuBar] false), after [UpdateHam] every
    entry [fHam[i][j]] with [0 <= i <= j <= 2] is
    [fHms[i][j] / lv + kr2GNe * fEps[i][j]], where
    [lv = 2 * kGeV2eV * fEnergy] and [kr2GNe] is the product of
    [sqrt 2], [kK2], [kGf], [fPath.density] and [fPath.zoa], multiplied
    as the source multiplies them:
    [(kK2 * M_SQRT2 * kGf) * (density * zoa)].  This holds in every
    arithmetic of [double]; the complex sum is also written out by real
    and imaginary part. *)
Theorem UpdateHam_neutrino (s : PMNS_NSI D) (i j : Z) :
  fIsNuBar s = false ->
  0 <= i <= j -> j <= 2 ->
  let lv := lv_of s in
  let kr2GNe := kr2GNe_of s in
  lv = d_mul (d_mul d_two kGeV2eV) (fEnergy s) /\
  kr2GNe = d_mul (d_mul (d_mul kK2 M_SQRT2) kGf)
                 (d_mul (density (fPath s)) (zoa (fPath s))) /\
  fHam (state (UpdateHam s)) i j =
    c_add (c_div_d (fHms s i j) lv) (d_mul_c kr2GNe (fEps s i j)) /\
  fHam (state (UpdateHam s)) i j =
    Cplx (d_add (d_div (real (fHms s i j)) lv)
                (d_mul (real (fEps s i j)) kr2GNe))
         (d_add (d_div (imag (fHms s i j)) lv)
                (d_mul (imag (fEps s i j)) kr2GNe)).
Proof.
  intros Hnu Hij Hj lv kr2GNe.
  split; [reflexivity | split; [reflexivity |]].
  rewrite UpdateHam_upper by assumption.
  rewrite Hnu. split; reflexivity.
Qed.

(** C2. Two runs of [UpdateHam] on objects with the same [fHms],
    [fEps], [fPath] and [fEnergy], one in antineutrino mode and one in
    neutrino mode: for [0 <= i <= j <= 2] the antineutrino run leaves
    [conj (fHms[i][j] / lv - kr2GNe * fEps[i][j])] in [fHam[i][j]],
    that is the real part [Re fHms / lv - kr2GNe * Re fEps] and the
    imaginary part [- (Im fHms / lv - kr2GNe * Im fEps)], and the
    neutrino run leaves [fHms[i][j] / lv + kr2GNe * fEps[i][j]], with
    [lv] and [kr2GNe] as [UpdateHam] computes them.  This holds in
    every arithmetic of [double]. *)
Theorem UpdateHam_antineutrino (s_nu s_bar : PMNS_NSI D) (i j : Z) :
  fHms s_bar = fHms s_nu -> fEps s_bar = fEps s_nu ->
  fPath s_bar = fPath s_nu -> fEnergy s_bar = fEnergy s_nu ->
  fIsNuBar s_nu = false -> fIsNuBar s_bar = true ->
  0 <= i <= j -> j <= 2 ->
  let lv := lv_of s_nu in
  let kr2GNe := kr2GNe_of s_nu in
  let vac := c_div_d (fHms s_nu i j) lv in
  let mat := d_mul_c kr2GNe (fEps s_nu i j) in
  fHam (state (UpdateHam s_bar)) i j = conj (c_sub vac mat) /\
  fHam (state (UpdateHam s_nu)) i j = c_add vac mat /\
  conj (c_sub vac mat) =
    Cplx (d_sub (d_div (real (fHms s_nu i j)) lv)
                (d_mul (real (fEps s_nu i j)) kr2GNe))
         (d_neg (d_sub (d_div (imag (fHms s_nu i j)) lv)
                       (d_mul (imag (fEps s_nu i j)) kr2GNe))) /\
  c_add vac mat =
    Cplx (d_add (d_div (real (fHms s_nu i j)) lv)
                (d_mul (real (fEps s_nu i j)) kr2GNe))
         (d_add (d_div (imag (fHms s_nu i j)) lv)
                (d_mul (imag (fEps s_nu i j)) kr2GNe)).
Proof.
  intros Hhms Heps Hpath Hen Hnu Hbar Hij Hj lv kr2GNe vac mat.
  rewrite !UpdateHam_upper by assumption.
  rewrite Hnu, Hbar. simpl negb. cbv iota.
  assert (Hlv : lv_of s_bar = lv).
  { unfold lv, lv_of. rewrite Hen. reflexivity. }
  assert (Hkr : kr2GNe_of s_bar = kr2GNe).
  { unfold kr2GNe, kr2GNe_of. rewrite Hpath. reflexivity. }
  rewrite Hlv, Hkr, Hhms, Heps.
  split; [reflexivity | split; [reflexivity | split; reflexivity]].
Qed.

End Hamiltonian.

(** ** The constants of [UpdateHam] over the real numbers *)

Section HamiltonianR.
Context {P : PhysConst R}.

Local Open Scope Z_scope.
Local Open Scope R_scope.

(** Read as a real number, the constant of the matter potential is the
    product [sqrt 2 * kK2 * kGf * density * zoa] in any order. *)
Lemma kr2GNe_of_R (s : PMNS_NSI R) :
  kr2GNe_of s = sqrt 2 * kK2 * kGf * density (fPath s) * zoa (fPath s).
Proof. unfold kr2GNe_of; simpl. ring. Qed.

Lemma lv_of_R (s : PMNS_NSI R) : lv_of s = 2 * kGeV2eV * fEnergy s.
Proof. reflexivity. Qed.

End HamiltonianR.

(** ** The parameter store, for any arithmetic *)

Section Store.
Context {D : Type} {Ops : Double D} {Consts : PhysConst D}.

Local Open Scope Z_scope.
Local Open Scope cmd_scope.

Lemma SetEps_fGotES_false (flvi flvj : Z) (val phase : D)
      (s : PMNS_NSI D) :
  fGotES s = false ->
  fGotES (state (SetEps flvi flvj val phase s)) = false.
Proof.
  intros Hf. rewrite SetEps_state. cbv zeta.
  destruct (rejected _ _); simpl; [assumption | rewrite Hf; reflexivity].
Qed.

Lemma run_call_fGotES_false (c : Call D) (s : PMNS_NSI D) :
  fGotES s = false -> fGotES (state (run_call c s)) = false.
Proof.
  intros Hf.
  destruct c; unfold run_call, SetNSI, SetEps_ee, SetEps_mumu,
    SetEps_tautau, SetEps_emu, SetEps_etau, SetEps_mutau;
    rewrite ?state_bind;
    repeat apply SetEps_fGotES_false; try assumption.
  - rewrite GetEps_state. exact Hf.
  - destruct (UpdateHam_frame s) as (_ & _ & _ & _ & _ & Hes).
    rewrite Hes. assumption.
Qed.

Lemma run_trace_fGotES_false (t : list (Call D)) (s : PMNS_NSI D) :
  fGotES s = false -> fGotES (state (run_trace t s)) = false.
Proof.
  revert s. induction t as [| c t IH]; intros s Hf; simpl.
  - assumption.
  - rewrite state_bind. apply IH, run_call_fGotES_false, Hf.
Qed.

(** What is reported on [cout]: nothing for a pair in order and in
    range, the reversal for a reversed pair, the rejection for a pair
    out of range. *)
Example SetEps_output_valid (s : PMNS_NSI D) (val phase : D) :
  output (SetEps 0 2 val phase s) = EmptyString.
Proof. reflexivity. Qed.

Example SetEps_output_reversed (s : PMNS_NSI D) (val phase : D) :
  output (SetEps 2 0 val phase s) =
    ("First argument should be smaller or equal to second argument" ++ endl
     ++ "Setting reverse order (Eps_02). " ++ endl)%string.
Proof. reflexivity. Qed.

Example GetEps_output_invalid (s : PMNS_NSI D) :
  output (GetEps 5 0 s) =
    ("First argument should be smaller or equal to second argument" ++ endl
     ++ "Setting reverse order (Eps_05). " ++ endl
     ++ "Eps_05 not valid for 3 neutrinos. Returning 0." ++ endl)%string.
Proof. reflexivity. Qed.

(** Coefficients are only ever written on or above the diagonal. *)
Lemma SetEps_lower (flvi flvj : Z) (val phase : D) (s : PMNS_NSI D)
      (i j : Z) :
  j < i -> fEps (state (SetEps flvi flvj val phase s)) i j = fEps s i j.
Proof.
  intros Hlt. rewrite SetEps_state. cbv zeta.
  destruct (rejected _ _); [reflexivity |]. simpl.
  apply mset_neq. intros E; injection E; lia.
Qed.

Lemma run_call_lower (c : Call D) (s : PMNS_NSI D) (i j : Z) :
  j < i -> fEps (state (run_call c s)) i j = fEps s i j.
Proof.
  intros Hlt.
  destruct c; unfold run_call, SetNSI, SetEps_ee, SetEps_mumu,
    SetEps_tautau, SetEps_emu, SetEps_etau, SetEps_mutau;
    rewrite ?state_bind, ?SetEps_lower by assumption; try reflexivity.
  - rewrite GetEps_state. reflexivity.
  - destruct (UpdateHam_frame s) as (_ & Heps & _). rewrite Heps.
    reflexivity.
Qed.

Lemma run_trace_lower (t : list (Call D)) (s : PMNS_NSI D) (i j : Z) :
  j < i -> fEps (state (run_trace t s)) i j = fEps s i j.
Proof.
  intros Hlt. revert s. induction t as [| c t IH]; intros s; simpl.
  - reflexivity.
  - rewrite state_bind, IH. apply run_call_lower, Hlt.
Qed.

(** C4. A call of [SetEps] with both indices in [0,2] (in either
    order) builds a value [h] and compares it with the coefficient
    stored for the pair: when they compare equal, [fGotES] is left as
    it was; when they do not, [fGotES] is false afterwards.  [SetNSI]
    does so for each of its six coefficients, and the six wrappers are
    [SetEps] at their pair.  No sequence of calls of the methods of the
    class turns [fGotES] from false to true. *)
Theorem SetEps_tracks_change (s : PMNS_NSI D) (flvi flvj : Z)
        (val phase : D) :
  0 <= flvi <= 2 -> 0 <= flvj <= 2 ->
  let a := Z.min flvi flvj in
  let b := Z.max flvi flvj in
  let h := eps_value a b val phase in
  let s' := state (SetEps flvi flvj val phase s) in
  (c_eqb (fEps s a b) h = true -> fGotES s' = fGotES s) /\
  (c_eqb (fEps s a b) h = false -> fGotES s' = false) /\
  (forall ee emu etau mumu mutau tautau demu detau dmutau,
      fGotES (state (SetNSI ee emu etau mumu mutau tautau
                            demu detau dmutau s)) =
        fGotES s
        && c_eqb (fEps s 0 0) (eps_value 0 0 ee d_zero)
        && c_eqb (fEps s 1 1) (eps_value 1 1 mumu d_zero)
        && c_eqb (fEps s 2 2) (eps_value 2 2 tautau d_zero)
        && c_eqb (fEps s 0 1) (eps_value 0 1 emu demu)
        && c_eqb (fEps s 0 2) (eps_value 0 2 etau detau)
        && c_eqb (fEps s 1 2) (eps_value 1 2 mutau dmutau)) /\
  (forall x p,
      SetEps_ee x = SetEps 0 0 x d_zero /\
      SetEps_mumu x = SetEps 1 1 x d_zero /\
      SetEps_tautau x = SetEps 2 2 x d_zero /\
      SetEps_emu x p = SetEps 0 1 x p /\
      SetEps_etau x p = SetEps 0 2 x p /\
      SetEps_mutau x p = SetEps 1 2 x p) /\
  (forall (t : list (Call D)) (s0 : PMNS_NSI D),
      fGotES s0 = false -> fGotES (state (run_trace t s0)) = false).
Proof.
  intros Hi Hj a b h s'.
  assert (Hs' : s' = set_fEps (mset (fEps s) a b h)
                      (set_fGotES (fGotES s && c_eqb (fEps s a b) h) s)).
  { unfold s'. rewrite SetEps_state. cbv zeta.
    assert (Hok : rejected (Z.min flvi flvj) (Z.max flvi flvj) = false)
      by (apply rejected_min_max; split; assumption).
    rewrite Hok. reflexivity. }
  split; [| split; [| split; [| split]]].
  - intros Heq. rewrite Hs'; simpl. rewrite Heq. apply andb_true_r.
  - intros Hne. rewrite Hs'; simpl. rewrite Hne. apply andb_false_r.
  - intros. reflexivity.
  - intros. repeat split.
  - apply run_trace_fGotES_false.
Qed.

(** C5. For [flvi > flvj], both in [0,2]: [SetEps(flvi, flvj, val,
    phase)] followed by [GetEps(flvi, flvj)] returns the value that
    [SetEps(flvj, flvi, val, phase)] followed by [GetEps(flvj, flvi)]
    returns, and both leave the same object behind, hence the same
    coefficient store. *)
Theorem SetEps_GetEps_unordered (s : PMNS_NSI D) (flvi flvj : Z)
        (val phase : D) :
  0 <= flvj < flvi -> flvi <= 2 ->
  let r1 := (SetEps flvi flvj val phase ;; GetEps flvi flvj) s in
  let r2 := (SetEps flvj flvi val phase ;; GetEps flvj flvi) s in
  result r1 = result r2 /\
  state r1 = state r2 /\
  fEps (state r1) = fEps (state r2) /\
  state (SetEps flvi flvj val phase s) =
    state (SetEps flvj flvi val phase s).
Proof.
  intros Hji Hi r1 r2. unfold r1, r2.
  rewrite !result_bind, !state_bind, !GetEps_state, !GetEps_result,
          !SetEps_state.
  rewrite (Z.min_comm flvi flvj), (Z.max_comm flvi flvj).
  repeat split.
Qed.

(** C6. When, after the smaller index is put first, one of the two
    indices is outside [0,2], [SetEps] leaves the object as it was, so
    [fEps] and [fGotES] in particular, and [GetEps] returns the complex
    zero; whether the other index is valid plays no part. *)
Theorem invalid_pair_rejected (s : PMNS_NSI D) (flvi flvj : Z)
        (val phase : D) :
  let a := Z.min flvi flvj in
  let b := Z.max flvi flvj in
  a < 0 \/ 2 < a \/ b < 0 \/ 2 < b ->
  state (SetEps flvi flvj val phase s) = s /\
  fEps (state (SetEps flvi flvj val phase s)) = fEps s /\
  fGotES (state (SetEps flvi flvj val phase s)) = fGotES s /\
  result (GetEps flvi flvj s) = zero /\
  state (GetEps flvi flvj s) = s.
Proof.
  intros a b Hbad.
  assert (Hrej : rejected (Z.min flvi flvj) (Z.max flvi flvj) = true).
  { destruct (rejected _ _) eqn:E; [reflexivity |].
    apply rejected_false_iff in E. unfold a, b in Hbad. lia. }
  rewrite SetEps_state, GetEps_result, GetEps_state. cbv zeta.
  rewrite Hrej. repeat split.
Qed.

(** C8. [UpdateHam] writes the entries [fHam[i][j]] with
    [0 <= i <= j <= 2], each with the value of the branch that
    [fIsNuBar] selects, and no other entry of [fHam]; it leaves [fEps]
    and [fGotES] as they were (and the other fields as well); and the
    entries it writes are the same for two objects that agree on
    [fHms], [fEps], [fPath], [fEnergy] and [fIsNuBar], whatever their
    [fHam] and [fGotES] were. *)
Theorem UpdateHam_footprint (s : PMNS_NSI D) :
  let s' := state (UpdateHam s) in
  (forall i j, ~ (0 <= i <= j /\ j <= 2) -> fHam s' i j = fHam s i j) /\
  (forall i j, 0 <= i <= j -> j <= 2 ->
     fHam s' i j =
       if negb (fIsNuBar s)
       then c_add (c_div_d (fHms s i j) (lv_of s))
                  (d_mul_c (kr2GNe_of s) (fEps s i j))
       else conj (c_sub (c_div_d (fHms s i j) (lv_of s))
                        (d_mul_c (kr2GNe_of s) (fEps s i j)))) /\
  fEps s' = fEps s /\
  fGotES s' = fGotES s /\
  (fHms s' = fHms s /\ fPath s' = fPath s /\ fEnergy s' = fEnergy s /\
   fIsNuBar s' = fIsNuBar s) /\
  (forall t : PMNS_NSI D,
      fHms t = fHms s -> fEps t = fEps s -> fPath t = fPath s ->
      fEnergy t = fEnergy s -> fIsNuBar t = fIsNuBar s ->
      forall i j, 0 <= i <= j -> j <= 2 ->
                  fHam (state (UpdateHam t)) i j = fHam s' i j).
Proof.
  intros s'. unfold s'.
  destruct (UpdateHam_frame s) as (Hhms & Heps & Hpath & Hen & Hbar & Hes).
  split; [| split; [| split; [| split; [| split]]]].
  - intros i j Hout. apply UpdateHam_other, Hout.
  - intros i j Hij Hj. apply UpdateHam_upper; assumption.
  - exact Heps.
  - exact Hes.
  - repeat split; assumption.
  - intros t Th Te Tp Tn Tb i j Hij Hj.
    rewrite !UpdateHam_upper by assumption.
    unfold lv_of, kr2GNe_of. rewrite Th, Te, Tp, Tn, Tb. reflexivity.
Qed.

(** C9. [GetEps] leaves the object as it was, for every pair of
    indices: [fEps], [fGotES], [fHam] and every other field.  So the
    object a sequence of calls leaves behind is the one the sequence
    leaves with its [GetEps] calls taken out, and a [GetEps] call may
    be moved across any other call. *)
Theorem GetEps_pure (s : PMNS_NSI D) (flvi flvj : Z) :
  state (GetEps flvi flvj s) = s /\
  (fEps (state (GetEps flvi flvj s)) = fEps s /\
   fGotES (state (GetEps flvi flvj s)) = fGotES s /\
   fHam (state (GetEps flvi flvj s)) = fHam s) /\
  (forall t : list (Call D),
      state (run_trace t s) = state (run_trace (erase_GetEps t) s)) /\
  (forall c : Call D,
      state (run_trace [CallGetEps flvi flvj; c] s) =
        state (run_trace [c; CallGetEps flvi flvj] s)).
Proof.
  split; [| split; [| split]].
  - apply GetEps_state.
  - rewrite GetEps_state. repeat split.
  - intros t. revert s. induction t as [| c t IH]; intros s.
    + reflexivity.
    + destruct c; simpl; rewrite !state_bind; try apply IH.
      rewrite GetEps_state. simpl. apply IH.
  - intros c. simpl. rewrite !state_bind.
    rewrite GetEps_state. simpl. rewrite GetEps_state. reflexivity.
Qed.

End Store.

(** ** The coefficients over the real numbers *)

Section CoefficientsR.
Context {P : PhysConst R}.

Local Open Scope Z_scope.
Local Open Scope R_scope.
Local Open Scope cmd_scope.

(** The value built for a diagonal pair. *)
Lemma eps_value_diag (i : Z) (val phase : R) :
  eps_value i i val phase = Cplx (if (i =? 0)%Z then val + 1 else val) 0.
Proof.
  unfold eps_value. rewrite Z.eqb_refl. simpl.
  destruct (i =? 0)%Z; reflexivity.
Qed.

(** The value built for a pair off the diagonal. *)
Lemma eps_value_offdiag (i j : Z) (val phase : R) :
  i <> j ->
  eps_value i j val phase = Cplx (val * cos phase) (val * sin phase).
Proof.
  intros Hne. unfold eps_value.
  destruct (Z.eqb_spec i j) as [E | _]; [contradiction |]. simpl.
  unfold c_mul; simpl. f_equal; ring.
Qed.

(** The six writes of [SetNSI], for any arithmetic. *)
Lemma SetNSI_fEps {D : Type} {Ops : Double D}
      (ee emu etau mumu mutau tautau demu detau dmutau : D)
      (s : PMNS_NSI D) :
  fEps (state (SetNSI ee emu etau mumu mutau tautau demu detau dmutau s)) =
    mset (mset (mset (mset (mset (mset (fEps s)
      0 0 (eps_value 0 0 ee d_zero))
      1 1 (eps_value 1 1 mumu d_zero))
      2 2 (eps_value 2 2 tautau d_zero))
      0 1 (eps_value 0 1 emu demu))
      0 2 (eps_value 0 2 etau detau))
      1 2 (eps_value 1 2 mutau dmutau).
Proof. reflexivity. Qed.

Lemma SetNSI_zero_upper (s : PMNS_NSI R) (i j : Z) :
  (0 <= i <= j)%Z -> (j <= 2)%Z ->
  fEps (state (SetNSI 0 0 0 0 0 0 0 0 0 s)) i j = diag100 i j.
Proof.
  intros Hij Hj. rewrite SetNSI_fEps.
  destruct (upper_cases Hij Hj) as [E | [E | [E | [E | [E | E]]]]];
    injection E as -> ->; unfold mset, diag100; simpl;
    rewrite ?eps_value_diag, ?eps_value_offdiag by discriminate;
    simpl; f_equal; ring.
Qed.

Lemma SetNSI_lower (s : PMNS_NSI R) (i j : Z)
      (ee emu etau mumu mutau tautau demu detau dmutau : R) :
  (j < i)%Z ->
  fEps (state (SetNSI ee emu etau mumu mutau tautau demu detau dmutau s))
       i j = fEps s i j.
Proof.
  intros Hlt. rewrite SetNSI_fEps.
  rewrite !mset_neq; [reflexivity | intros E; injection E; lia ..].
Qed.

(** C3. For a pair with [0 <= flvi <= flvj <= 2], [SetEps(flvi, flvj,
    val, phase)] stores: on the diagonal the complex number of real
    part [val] and imaginary part 0, with 1 added to the real part
    exactly when [flvi = 0], and the object left behind is the same
    for every phase; off the diagonal [val * (cos phase + i sin
    phase)].  [GetEps] on the same pair then returns the stored
    value. *)
Theorem SetEps_then_GetEps (s : PMNS_NSI R) (flvi flvj : Z)
        (val phase : R) :
  (0 <= flvi <= flvj)%Z -> (flvj <= 2)%Z ->
  let s' := state (SetEps flvi flvj val phase s) in
  (flvi = flvj ->
     (flvi = 0%Z -> fEps s' flvi flvj = Cplx (val + 1) 0) /\
     (flvi <> 0%Z -> fEps s' flvi flvj = Cplx val 0) /\
     (forall phase' : R, state (SetEps flvi flvj val phase' s) = s')) /\
  ((flvi < flvj)%Z ->
     fEps s' flvi flvj = Cplx (val * cos phase) (val * sin phase)) /\
  result (GetEps flvi flvj s') = fEps s' flvi flvj.
Proof.
  intros Hij Hj s'.
  assert (Hmin : Z.min flvi flvj = flvi) by lia.
  assert (Hmax : Z.max flvi flvj = flvj) by lia.
  assert (Hok : rejected flvi flvj = false)
    by (apply rejected_false_iff; lia).
  assert (Hst : forall p, fEps (state (SetEps flvi flvj val p s)) flvi flvj
                          = eps_value flvi flvj val p).
  { intros p. rewrite SetEps_state. cbv zeta.
    rewrite Hmin, Hmax, Hok. simpl. apply mset_eq. }
  split; [| split].
  - intros ->. unfold s'. rewrite Hst, eps_value_diag.
    split; [| split].
    + intros ->. reflexivity.
    + intros Hnz. destruct (Z.eqb_spec flvj 0); [contradiction |].
      reflexivity.
    + intros p. rewrite !SetEps_state. cbv zeta.
      rewrite !eps_value_diag. reflexivity.
  - intros Hlt. unfold s'. rewrite Hst.
    apply eps_value_offdiag. lia.
  - rewrite GetEps_result. cbv zeta. rewrite Hmin, Hmax, Hok. reflexivity.
Qed.


(** C10. In a freshly constructed object [GetEps(0,0)] returns 1 and
    [GetEps(i,j)] returns 0 for every other pair with
    [0 <= i <= j <= 2]: the constructor runs [SetNSI] with nine zeros
    on a zeroed [fEps]. *)
Theorem fresh_object_eps (inherited : PMNS_NSI R) :
  let s := state (new_PMNS_NSI inherited) in
  result (GetEps 0 0 s) = Cplx 1 0 /\
  (forall i j, (0 <= i <= j)%Z -> (j <= 2)%Z -> (i, j) <> (0%Z, 0%Z) ->
               result (GetEps i j s) = Cplx 0 0) /\
  (forall i j, (0 <= i <= 2)%Z -> (0 <= j <= 2)%Z ->
               fEps s i j = diag100 i j).
Proof.
  intros s.
  assert (Hup : forall i j, (0 <= i <= j)%Z -> (j <= 2)%Z ->
                            result (GetEps i j s) = diag100 i j).
  { intros i j Hij Hj. rewrite GetEps_result. cbv zeta.
    rewrite Z.min_l, Z.max_r by lia.
    assert (Hok : rejected i j = false) by (apply rejected_false_iff; lia).
    rewrite Hok. unfold s, new_PMNS_NSI.
    apply SetNSI_zero_upper; assumption. }
  split; [| split].
  - rewrite Hup by lia. reflexivity.
  - intros i j Hij Hj Hne. rewrite Hup by assumption.
    unfold diag100.
    destruct (Z.eqb_spec i 0) as [-> |]; [| reflexivity].
    destruct (Z.eqb_spec j 0) as [-> |]; [| reflexivity].
    contradiction Hne; reflexivity.
  - intros i j Hi Hj. unfold s, new_PMNS_NSI.
    destruct (Z_le_gt_dec i j) as [Hle | Hgt].
    + apply SetNSI_zero_upper; lia.
    + rewrite SetNSI_lower by lia. simpl. unfold diag100.
      destruct (Z.eqb_spec i 0); [lia |]. reflexivity.
Qed.

End CoefficientsR.

(** ** The statements at the sample object *)

Section HamiltonianSample.
Import PrimFloat.

(** The entry [(0,0)] of the binary64 sample object: [1 / 2e9] from the
    vacuum term and [sqrt 2 * 1.3] from the matter term. *)
Lemma UpdateHam_neutrino_witness :
  fIsNuBar sample_obj64 = false /\
  fHam (state (UpdateHam (Ops := Double_binary64 (fun x => x) (fun x => x))
                         (Consts := sample_const64) sample_obj64))
       0%Z 0%Z =
    Cplx (1 / (2 * 1000000000 * 1)
          + 1 * (1 * 0x1.6a09e667f3bcdp+0 * 1
                 * (0x1.4cccccccccccdp+1 * 0.5)))%float
         (0 / (2 * 1000000000 * 1)
          + 0 * (1 * 0x1.6a09e667f3bcdp+0 * 1
                 * (0x1.4cccccccccccdp+1 * 0.5)))%float.
Proof.
  split; [reflexivity |].
  exact (proj2 (proj2 (proj2
    (@UpdateHam_neutrino float (Double_binary64 (fun x => x) (fun x => x))
       sample_const64 sample_obj64 0%Z 0%Z
       eq_refl ltac:(lia) ltac:(lia))))).
Defined.

Lemma UpdateHam_antineutrino_witness :
  fIsNuBar sample_obj64 = false /\ fIsNuBar sample_bar64 = true /\
  fHam (state (UpdateHam (Ops := Double_binary64 (fun x => x) (fun x => x))
                         (Consts := sample_const64) sample_bar64))
       0%Z 0%Z =
    Cplx (1 / (2 * 1000000000 * 1)
          - 1 * (1 * 0x1.6a09e667f3bcdp+0 * 1
                 * (0x1.4cccccccccccdp+1 * 0.5)))%float
         (- (0 / (2 * 1000000000 * 1)
             - 0 * (1 * 0x1.6a09e667f3bcdp+0 * 1
                    * (0x1.4cccccccccccdp+1 * 0.5))))%float /\
  fHam (state (UpdateHam (Ops := Double_binary64 (fun x => x) (fun x => x))
                         (Consts := sample_const64) sample_obj64))
       0%Z 0%Z =
    Cplx (1 / (2 * 1000000000 * 1)
          + 1 * (1 * 0x1.6a09e667f3bcdp+0 * 1
                 * (0x1.4cccccccccccdp+1 * 0.5)))%float
         (0 / (2 * 1000000000 * 1)
          + 0 * (1 * 0x1.6a09e667f3bcdp+0 * 1
                 * (0x1.4cccccccccccdp+1 * 0.5)))%float.
Proof.
  split; [reflexivity | split; [reflexivity |]].
  pose proof (@UpdateHam_antineutrino float
                (Double_binary64 (fun x => x) (fun x => x)) sample_const64
                sample_obj64 sample_bar64 0%Z 0%Z
                eq_refl eq_refl eq_refl eq_refl eq_refl eq_refl
                ltac:(lia) ltac:(lia)) as HH.
  cbv zeta in HH. destruct HH as (Hbar & Hnu & Hbar' & Hnu').
  split.
  - exact (eq_trans Hbar Hbar').
  - exact (eq_trans Hnu Hnu').
Defined.

End HamiltonianSample.

Lemma SetEps_then_GetEps_witness :
  fEps (state (SetEps 0 1 2%R 0%R sample_obj)) 0%Z 1%Z =
    Cplx (2 * cos 0)%R (2 * sin 0)%R /\
  result (GetEps 0 1 (state (SetEps 0 1 2%R 0%R sample_obj))) =
    fEps (state (SetEps 0 1 2%R 0%R sample_obj)) 0%Z 1%Z /\
  fEps (state (SetEps 0 0 2%R 0%R sample_obj)) 0%Z 0%Z = Cplx (2 + 1)%R 0%R.
Proof.
  destruct (@SetEps_then_GetEps sample_obj 0%Z 1%Z 2%R 0%R
              ltac:(lia) ltac:(lia)) as (_ & Hoff & Hget).
  destruct (@SetEps_then_GetEps sample_obj 0%Z 0%Z 2%R 0%R
              ltac:(lia) ltac:(lia)) as (Hdiag & _ & _).
  destruct (Hdiag eq_refl) as (Hee & _ & _).
  split; [apply Hoff; lia | split; [exact Hget | apply Hee; reflexivity]].
Defined.

Lemma SetEps_tracks_change_witness :
  fGotES sample_solved = true /\
  fGotES (state (SetEps 1 0 0%R 0%R sample_solved)) = true /\
  fGotES (state (SetEps 1 0 1%R 0%R sample_solved)) = false.
Proof.
  split; [reflexivity |].
  destruct (@SetEps_tracks_change R Double_R sample_const sample_solved
              1%Z 0%Z 0%R 0%R ltac:(lia) ltac:(lia)) as (Hsame & _).
  destruct (@SetEps_tracks_change R Double_R sample_const sample_solved
              1%Z 0%Z 1%R 0%R ltac:(lia) ltac:(lia)) as (_ & Hdiff & _).
  split.
  - rewrite Hsame; [reflexivity |].
    unfold c_eqb. apply andb_true_iff. cbn.
    split; destruct (Req_dec_T _ _) as [_ | E]; try reflexivity;
      exfalso; apply E; ring.
  - apply Hdiff.
    unfold c_eqb. apply andb_false_iff. left.
    cbn. destruct (Req_dec_T _ _) as [E | _]; [| reflexivity].
    exfalso. rewrite cos_0, sin_0 in E. lra.
Defined.

Lemma SetEps_GetEps_unordered_witness :
  result (bind (SetEps 2 0 1%R 0%R) (fun _ => GetEps 2 0) sample_obj) =
    result (bind (SetEps 0 2 1%R 0%R) (fun _ => GetEps 0 2) sample_obj) /\
  state (SetEps 2 0 1%R 0%R sample_obj) =
    state (SetEps 0 2 1%R 0%R sample_obj).
Proof.
  destruct (@SetEps_GetEps_unordered R Double_R sample_obj 2%Z 0%Z 1%R 0%R
              ltac:(lia) ltac:(lia)) as (Hres & _ & _ & Hst).
  split; [exact Hres | exact Hst].
Defined.

Lemma invalid_pair_rejected_witness :
  state (SetEps 3 1 1%R 0%R sample_obj) = sample_obj /\
  result (GetEps 3 1 sample_obj) = zero /\
  state (SetEps (-1) 1 1%R 0%R sample_obj) = sample_obj /\
  result (GetEps 1 (-1) sample_obj) = zero.
Proof.
  destruct (@invalid_pair_rejected R Double_R sample_obj 3%Z 1%Z 1%R 0%R
              ltac:(simpl; lia)) as (Hset & _ & _ & Hget & _).
  destruct (@invalid_pair_rejected R Double_R sample_obj (-1)%Z 1%Z 1%R 0%R
              ltac:(simpl; lia)) as (Hset' & _).
  destruct (@invalid_pair_rejected R Double_R sample_obj 1%Z (-1)%Z 1%R 0%R
              ltac:(simpl; lia)) as (_ & _ & _ & Hget' & _).
  split; [exact Hset | split; [exact Hget | split; [exact Hset' | exact Hget']]].
Defined.

(** ** The methods run on binary64 *)

Section Binary64Runs.
Import PrimFloat.
Variables fcos fsin : float -> float.

Let B64 : Double float := Double_binary64 fcos fsin.

Example binary64_SetEps_ee :
  result (GetEps (Ops := B64) 0 0
            (state (SetEps_ee (Ops := B64) 0.5%float sample_obj64))) =
    Cplx 1.5%float 0%float.
Proof. vm_compute. reflexivity. Qed.

Example binary64_SetEps_mumu :
  result (GetEps (Ops := B64) 1 1
            (state (SetEps_mumu (Ops := B64) 0.25%float sample_obj64))) =
    Cplx 0.25%float 0%float /\
  result (GetEps (Ops := B64) 3 1 sample_obj64) = Cplx 0%float 0%float.
Proof. vm_compute. split; reflexivity. Qed.

Example binary64_SetEps_emu (a phi : float) :
  result (GetEps (Ops := B64) 1 0
            (state (SetEps_emu (Ops := B64) a phi sample_obj64))) =
    Cplx (a * fcos phi - 0 * fsin phi)%float
         (a * fsin phi + 0 * fcos phi)%float.
Proof. reflexivity. Qed.

Example binary64_flag :
  fGotES (state (SetEps_ee (Ops := B64) 0%float sample_obj64)) = true /\
  fGotES (state (SetEps_ee (Ops := B64) 0.5%float sample_obj64)) = false.
Proof. vm_compute. split; reflexivity. Qed.

(** [UpdateHam] on the sample object: [1 / 2e9 + sqrt 2 * 1.3] on the
    diagonal at [(0,0)], [1 / 2e9] at [(1,2)], and the entry [(1,0)]
    below the diagonal left at its old value. *)
Example binary64_UpdateHam :
  let s' := state (UpdateHam (Ops := B64) (Consts := sample_const64)
                             sample_obj64) in
  fHam s' 0%Z 0%Z = Cplx 0x1.d6a6785615d09p+0%float 0%float /\
  fHam s' 1%Z 2%Z = Cplx 0x1.12e0be826d695p-31%float 0%float /\
  fHam s' 1%Z 0%Z = fHam sample_obj64 1%Z 0%Z.
Proof. vm_compute. repeat split. Qed.

(** A freshly constructed object, given that the C library returns
    [cos 0 = 1] and [sin 0 = 0]: the coefficients are exactly
    [diag(1,0,0)] in binary64 too. *)
Example binary64_fresh_object (inherited : PMNS_NSI float) :
  fcos 0%float = 1%float -> fsin 0%float = 0%float ->
  let s := state (new_PMNS_NSI (Ops := B64) inherited) in
  result (GetEps (Ops := B64) 0 0 s) = Cplx 1%float 0%float /\
  result (GetEps (Ops := B64) 1 1 s) = Cplx 0%float 0%float /\
  result (GetEps (Ops := B64) 2 2 s) = Cplx 0%float 0%float /\
  result (GetEps (Ops := B64) 0 1 s) = Cplx 0%float 0%float /\
  result (GetEps (Ops := B64) 0 2 s) = Cplx 0%float 0%float /\
  result (GetEps (Ops := B64) 1 2 s) = Cplx 0%float 0%float.
Proof.
  intros Hcos Hsin s. unfold s, new_PMNS_NSI.
  rewrite !GetEps_result, !SetNSI_fEps.
  unfold mset, eps_value, c_mul, c_add_d, c_of_double, B64; simpl.
  rewrite Hcos, Hsin. vm_compute. repeat split.
Qed.

(** After [SetNSI] with nine zeros, [UpdateHam] in neutrino mode on any
    binary64 object and with any constants: the entry is
    [fHms[i][j] / lv + kr2GNe * diag(1,0,0)[i][j]], with [lv] and
    [kr2GNe] as the method computes them, given that the C library
    returns [cos 0 = 1] and [sin 0 = 0]. *)
Example binary64_SetNSI_zero_UpdateHam (C : PhysConst float)
        (s : PMNS_NSI float) (i j : Z) :
  fcos 0%float = 1%float -> fsin 0%float = 0%float ->
  fIsNuBar s = false ->
  (0 <= i <= j)%Z -> (j <= 2)%Z ->
  let s0 := state (SetNSI (Ops := B64) 0%float 0%float 0%float 0%float
                          0%float 0%float 0%float 0%float 0%float s) in
  fHam (state (UpdateHam (Ops := B64) (Consts := C) s0)) i j =
    c_add (Ops := B64)
      (c_div_d (Ops := B64) (fHms s i j) (lv_of (Ops := B64) s))
      (d_mul_c (Ops := B64) (kr2GNe_of (Ops := B64) s)
         (if (i =? 0)%Z && (j =? 0)%Z
          then Cplx 1%float 0%float else Cplx 0%float 0%float)).
Proof.
  intros Hcos Hsin Hnu Hij Hj s0.
  rewrite UpdateHam_upper by assumption.
  assert (Hnu0 : fIsNuBar s0 = false) by exact Hnu.
  assert (Hlv : lv_of (Ops := B64) s0 = lv_of (Ops := B64) s)
    by reflexivity.
  assert (Hkr : kr2GNe_of (Ops := B64) s0 = kr2GNe_of (Ops := B64) s)
    by reflexivity.
  assert (Hhms : fHms s0 = fHms s) by reflexivity.
  rewrite Hnu0, Hlv, Hkr, Hhms. simpl negb. cbv iota.
  do 2 f_equal.
  unfold s0. rewrite SetNSI_fEps.
  destruct (upper_cases Hij Hj) as [E | [E | [E | [E | [E | E]]]]];
    injection E as -> ->;
    unfold mset, eps_value, c_mul, c_add_d, c_of_double, B64; simpl;
    rewrite ?Hcos, ?Hsin; reflexivity.
Qed.

End Binary64Runs.

(** * Further properties of the methods *)

(** ** The store and the Hamiltonian, for any arithmetic *)

Section MoreStore.
Context {D : Type} {Ops : Double D} {Consts : PhysConst D}.

Local Open Scope Z_scope.
Local Open Scope cmd_scope.

Lemma output_bind {A B} (c : Cmd D A) (k : A -> Cmd D B) (s : PMNS_NSI D) :
  output (bind c k s) =
    (output (c s) ++ output (k (result (c s)) (state (c s))))%string.
Proof.
  unfold bind, state, result, output.
  destruct (c s) as [[a s1] o1]; simpl.
  destruct (k a s1) as [[b s2] o2]; reflexivity.
Qed.

(** An entry of [fEps] after a call of [SetEps]. *)
Lemma SetEps_fEps_at (flvi flvj : Z) (val phase : D) (s : PMNS_NSI D)
      (a b : Z) :
  fEps (state (SetEps flvi flvj val phase s)) a b =
    if rejected (Z.min flvi flvj) (Z.max flvi flvj) then fEps s a b
    else mset (fEps s) (Z.min flvi flvj) (Z.max flvi flvj)
              (eps_value (Z.min flvi flvj) (Z.max flvi flvj) val phase) a b.
Proof.
  rewrite SetEps_state. cbv zeta. destruct (rejected _ _); reflexivity.
Qed.

(** The inherited fields and [fHam] after a call of [SetEps]. *)
Lemma SetEps_keeps (flvi flvj : Z) (val phase : D) (s : PMNS_NSI D) :
  let s' := state (SetEps flvi flvj val phase s) in
  fHms s' = fHms s /\ fHam s' = fHam s /\ fPath s' = fPath s /\
  fEnergy s' = fEnergy s /\ fIsNuBar s' = fIsNuBar s.
Proof.
  cbv zeta. rewrite SetEps_state. cbv zeta.
  destruct (rejected _ _); repeat split.
Qed.

Lemma upper_dec (i j : Z) :
  {0 <= i <= j /\ j <= 2} + {~ (0 <= i <= j /\ j <= 2)}.
Proof.
  destruct (Z_le_dec 0 i), (Z_le_dec i j), (Z_le_dec j 2);
    (left; lia) || (right; lia).
Qed.

(** The flag after [SetNSI], for any arithmetic: the six comparisons
    are made against the store as it was on entry. *)
Lemma SetNSI_fGotES
      (ee emu etau mumu mutau tautau demu detau dmutau : D)
      (s : PMNS_NSI D) :
  fGotES (state (SetNSI ee emu etau mumu mutau tautau demu detau dmutau s)) =
    (fGotES s
     && c_eqb (fEps s 0 0) (eps_value 0 0 ee d_zero)
     && c_eqb (fEps s 1 1) (eps_value 1 1 mumu d_zero)
     && c_eqb (fEps s 2 2) (eps_value 2 2 tautau d_zero)
     && c_eqb (fEps s 0 1) (eps_value 0 1 emu demu)
     && c_eqb (fEps s 0 2) (eps_value 0 2 etau detau)
     && c_eqb (fEps s 1 2) (eps_value 1 2 mutau dmutau))%bool.
Proof. reflexivity. Qed.

(** X1. The pair of indices is unordered for every pair of [int]s, in
    range or not: [GetEps(i, j)] and [GetEps(j, i)] return the same
    number (the mirrored coefficient is not conjugated), and
    [SetEps(i, j, val, phase)] and [SetEps(j, i, val, phase)] leave the
    same object. *)
Theorem pair_is_unordered (s : PMNS_NSI D) (i j : Z) (val phase : D) :
  result (GetEps i j s) = result (GetEps j i s) /\
  state (SetEps i j val phase s) = state (SetEps j i val phase s).
Proof.
  rewrite !GetEps_result, !SetEps_state.
  rewrite (Z.min_comm i j), (Z.max_comm i j). split; reflexivity.
Qed.

(** X2. [SetEps] writes one coefficient at most: every entry of [fEps]
    other than the one of the pair put in order is left as it was, and
    so are [fHam] and the inherited fields [fHms], [fPath], [fEnergy]
    and [fIsNuBar]. *)
Theorem SetEps_frame (s : PMNS_NSI D) (flvi flvj : Z) (val phase : D)
        (a b : Z) :
  (a, b) <> (Z.min flvi flvj, Z.max flvi flvj) ->
  let s' := state (SetEps flvi flvj val phase s) in
  fEps s' a b = fEps s a b /\
  fHam s' = fHam s /\ fHms s' = fHms s /\ fPath s' = fPath s /\
  fEnergy s' = fEnergy s /\ fIsNuBar s' = fIsNuBar s.
Proof.
  intros Hne s'. unfold s'.
  destruct (SetEps_keeps flvi flvj val phase s) as (H1 & H2 & H3 & H4 & H5).
  split; [| repeat split; assumption].
  rewrite SetEps_fEps_at. destruct (rejected _ _); [reflexivity |].
  apply mset_neq, Hne.
Qed.

(** X3. Coefficients are independent: after [SetEps] on one pair,
    [GetEps] on any other unordered pair returns what it returned
    before. *)
Theorem GetEps_other_pair (s : PMNS_NSI D) (flvi flvj : Z) (val phase : D)
        (a b : Z) :
  (Z.min a b, Z.max a b) <> (Z.min flvi flvj, Z.max flvi flvj) ->
  result (GetEps a b (state (SetEps flvi flvj val phase s))) =
    result (GetEps a b s).
Proof.
  intros Hne. rewrite !GetEps_result. cbv zeta.
  destruct (rejected (Z.min a b) (Z.max a b)); [reflexivity |].
  rewrite SetEps_fEps_at. destruct (rejected _ _); [reflexivity |].
  apply mset_neq, Hne.
Qed.

(** X4. The last write wins: two calls of [SetEps] on the same pair
    leave the coefficients that the second call alone leaves, and
    [GetEps] then returns the same number in both cases. *)
Theorem SetEps_last_write_wins (s : PMNS_NSI D) (flvi flvj : Z)
        (val1 phase1 val2 phase2 : D) :
  let both := state (SetEps flvi flvj val2 phase2
                       (state (SetEps flvi flvj val1 phase1 s))) in
  let last := state (SetEps flvi flvj val2 phase2 s) in
  (forall a b, fEps both a b = fEps last a b) /\
  (forall a b, result (GetEps a b both) = result (GetEps a b last)).
Proof.
  intros both last.
  assert (Hall : forall a b, fEps both a b = fEps last a b).
  { intros a b. unfold both, last. rewrite !SetEps_fEps_at.
    destruct (rejected _ _) eqn:Hrej; [reflexivity |].
    unfold mset.
    destruct ((a =? _) && (b =? _))%bool eqn:Hab; [reflexivity |].
    rewrite SetEps_fEps_at, Hrej. unfold mset. rewrite Hab. reflexivity. }
  split; [exact Hall |].
  intros a b. rewrite !GetEps_result. cbv zeta.
  destruct (rejected _ _); [reflexivity | apply Hall].
Qed.

(** X5. Calls of [SetEps] on two different unordered pairs commute:
    both orders leave the same coefficients, the same [fGotES] and the
    same other fields. *)
Theorem SetEps_commute (s : PMNS_NSI D) (i1 j1 i2 j2 : Z)
        (val1 phase1 val2 phase2 : D) :
  (Z.min i1 j1, Z.max i1 j1) <> (Z.min i2 j2, Z.max i2 j2) ->
  let s12 := state (SetEps i2 j2 val2 phase2
                      (state (SetEps i1 j1 val1 phase1 s))) in
  let s21 := state (SetEps i1 j1 val1 phase1
                      (state (SetEps i2 j2 val2 phase2 s))) in
  (forall a b, fEps s12 a b = fEps s21 a b) /\
  fGotES s12 = fGotES s21 /\
  fHam s12 = fHam s21 /\ fHms s12 = fHms s21 /\ fPath s12 = fPath s21 /\
  fEnergy s12 = fEnergy s21 /\ fIsNuBar s12 = fIsNuBar s21.
Proof.
  intros Hne s12 s21. unfold s12, s21.
  assert (Hne' : (Z.min i2 j2, Z.max i2 j2) <> (Z.min i1 j1, Z.max i1 j1))
    by (intros E; apply Hne; symmetry; exact E).
  split; [| split].
  - intros a b. rewrite !SetEps_fEps_at.
    destruct (rejected (Z.min i1 j1) _) eqn:R1,
             (rejected (Z.min i2 j2) _) eqn:R2;
      unfold mset; rewrite ?SetEps_fEps_at, ?R1, ?R2; unfold mset;
      try reflexivity.
    destruct (Z.eqb_spec a (Z.min i1 j1)), (Z.eqb_spec b (Z.max i1 j1)),
             (Z.eqb_spec a (Z.min i2 j2)), (Z.eqb_spec b (Z.max i2 j2));
      simpl; try reflexivity.
    exfalso. apply Hne. congruence.
  - rewrite !SetEps_state. cbv zeta.
    destruct (rejected (Z.min i1 j1) _), (rejected (Z.min i2 j2) _);
      simpl; try reflexivity.
    rewrite !(mset_neq _ _ Hne), !(mset_neq _ _ Hne').
    rewrite <- !andb_assoc. f_equal. apply andb_comm.
  - rewrite !SetEps_state. cbv zeta.
    destruct (rejected (Z.min i1 j1) _), (rejected (Z.min i2 j2) _);
      repeat split.
Qed.

End MoreStore.

(** ** Sequences of calls and the Hamiltonian, for any arithmetic *)

Section MoreTraces.
Context {D : Type} {Ops : Double D} {Consts : PhysConst D}.

Local Open Scope Z_scope.
Local Open Scope cmd_scope.

(** A relation between the object before and after that is reflexive
    and transitive and holds across [SetEps] and [UpdateHam] holds
    across every sequence of calls. *)
Lemma run_trace_rel (Rel : PMNS_NSI D -> PMNS_NSI D -> Prop) :
  (forall s, Rel s s) ->
  (forall s1 s2 s3, Rel s1 s2 -> Rel s2 s3 -> Rel s1 s3) ->
  (forall i j v p s, Rel s (state (SetEps i j v p s))) ->
  (forall s, Rel s (state (UpdateHam s))) ->
  forall t s, Rel s (state (run_trace t s)).
Proof.
  intros Hrefl Htrans Hset Hupd.
  assert (Hcall : forall c s, Rel s (state (run_call c s))).
  { intros c s.
    destruct c; unfold run_call, SetNSI, SetEps_ee, SetEps_mumu,
      SetEps_tautau, SetEps_emu, SetEps_etau, SetEps_mutau;
      rewrite ?state_bind; try apply Hset; try apply Hupd.
    - repeat match goal with
        | |- Rel ?a (state (SetEps _ _ _ _ ?b)) =>
            first [ apply Hset | apply (Htrans a b); [| apply Hset] ]
        end.
    - rewrite GetEps_state. apply Hrefl. }
  induction t as [| c t IH]; intros s; simpl.
  - apply Hrefl.
  - rewrite state_bind. eapply Htrans; [apply Hcall | apply IH].
Qed.

(** X6. Whatever the sequence of calls, [fEps] and [fHam] are written
    only at entries [(i, j)] with [0 <= i <= j <= 2]: nothing is written
    below the diagonal or outside the 3x3 arrays.  The inherited inputs
    [fHms], [fPath], [fEnergy] and [fIsNuBar] are never written. *)
Theorem writes_are_confined (t : list (Call D)) (s : PMNS_NSI D) :
  let s' := state (run_trace t s) in
  (forall i j, ~ (0 <= i <= j /\ j <= 2) ->
               fEps s' i j = fEps s i j /\ fHam s' i j = fHam s i j) /\
  fHms s' = fHms s /\ fPath s' = fPath s /\
  fEnergy s' = fEnergy s /\ fIsNuBar s' = fIsNuBar s.
Proof.
  cbv zeta. revert t s.
  apply (run_trace_rel
    (fun s s' =>
       (forall i j, ~ (0 <= i <= j /\ j <= 2) ->
                    fEps s' i j = fEps s i j /\ fHam s' i j = fHam s i j) /\
       fHms s' = fHms s /\ fPath s' = fPath s /\
       fEnergy s' = fEnergy s /\ fIsNuBar s' = fIsNuBar s)).
  - intros s. repeat split.
  - intros s1 s2 s3 (E12 & A1 & A2 & A3 & A4) (E23 & B1 & B2 & B3 & B4).
    split; [| repeat split; congruence].
    intros i j Hout.
    destruct (E12 i j Hout) as [e1 h1], (E23 i j Hout) as [e2 h2].
    split; congruence.
  - intros i j v p s.
    destruct (SetEps_keeps i j v p s) as (H1 & H2 & H3 & H4 & H5).
    split; [| repeat split; assumption].
    intros a b Hout. split; [| rewrite H2; reflexivity].
    rewrite SetEps_fEps_at.
    destruct (rejected _ _) eqn:Hrej; [reflexivity |].
    apply rejected_false_iff in Hrej.
    apply mset_neq. intros E. injection E as -> ->. apply Hout. lia.
  - intros s.
    destruct (UpdateHam_frame s) as (H1 & H2 & H3 & H4 & H5 & _).
    split; [| repeat split; assumption].
    intros i j Hout. split; [rewrite H2; reflexivity |].
    apply UpdateHam_other, Hout.
Qed.

(** X7. Only [UpdateHam] writes the Hamiltonian: a sequence of calls
    without [UpdateHam] leaves [fHam] as it was, so new NSI parameters
    reach [fHam] only at the next [UpdateHam]. *)
Theorem fHam_waits_for_UpdateHam (t : list (Call D)) (s : PMNS_NSI D) :
  ~ In CallUpdateHam t ->
  fHam (state (run_trace t s)) = fHam s.
Proof.
  revert s. induction t as [| c t IH]; intros s Hno; simpl.
  - reflexivity.
  - rewrite state_bind, IH by (intros Hin; apply Hno; right; exact Hin).
    destruct c; unfold run_call, SetNSI, SetEps_ee, SetEps_mumu,
      SetEps_tautau, SetEps_emu, SetEps_etau, SetEps_mutau;
      rewrite ?state_bind;
      repeat match goal with
        | |- fHam (state (SetEps ?i ?j ?v ?p ?s0)) = _ =>
            destruct (SetEps_keeps i j v p s0) as (_ & -> & _)
        end; try reflexivity.
    + rewrite GetEps_state. reflexivity.
    + exfalso. apply Hno. left. reflexivity.
Qed.

(** X8. [UpdateHam] is idempotent: a second call right after the first
    leaves every entry of [fHam] and every other field as the first
    left them. *)
Theorem UpdateHam_idempotent (s : PMNS_NSI D) :
  let s1 := state (UpdateHam s) in
  let s2 := state (UpdateHam s1) in
  (forall i j, fHam s2 i j = fHam s1 i j) /\
  fEps s2 = fEps s1 /\ fGotES s2 = fGotES s1 /\ fHms s2 = fHms s1 /\
  fPath s2 = fPath s1 /\ fEnergy s2 = fEnergy s1 /\
  fIsNuBar s2 = fIsNuBar s1.
Proof.
  intros s1 s2. unfold s2.
  destruct (UpdateHam_frame s1) as (A1 & A2 & A3 & A4 & A5 & A6).
  split; [| repeat split; assumption].
  intros i j. destruct (upper_dec i j) as [[Hij Hj] | Hout].
  - unfold s1 at 2. rewrite !UpdateHam_upper by assumption.
    destruct (UpdateHam_frame s) as (B1 & B2 & B3 & B4 & B5 & B6).
    fold s1 in B1, B2, B3, B4, B5.
    unfold lv_of, kr2GNe_of. rewrite B1, B2, B3, B4, B5. reflexivity.
  - apply UpdateHam_other, Hout.
Qed.

(** X9. The entry [fHam[i][j]] that [UpdateHam] writes depends on the
    matrices only through [fHms[i][j]] and [fEps[i][j]]: two objects
    that agree there and on [fPath], [fEnergy] and [fIsNuBar] get the
    same entry, whatever their other coefficients are. *)
Theorem UpdateHam_entry_local (s t : PMNS_NSI D) (i j : Z) :
  0 <= i <= j -> j <= 2 ->
  fHms t i j = fHms s i j -> fEps t i j = fEps s i j ->
  fPath t = fPath s -> fEnergy t = fEnergy s -> fIsNuBar t = fIsNuBar s ->
  fHam (state (UpdateHam t)) i j = fHam (state (UpdateHam s)) i j.
Proof.
  intros Hij Hj Eh Ee Ep En Eb.
  rewrite !UpdateHam_upper by assumption.
  unfold lv_of, kr2GNe_of. rewrite Eh, Ee, Ep, En, Eb. reflexivity.
Qed.

(** X10. Setting one coefficient moves one entry of the Hamiltonian:
    [SetEps] followed by [UpdateHam] gives, at every entry on or above
    the diagonal other than the one of the pair put in order, what
    [UpdateHam] alone gives. *)
Theorem SetEps_moves_one_entry (s : PMNS_NSI D) (flvi flvj : Z)
        (val phase : D) (a b : Z) :
  0 <= a <= b -> b <= 2 ->
  (a, b) <> (Z.min flvi flvj, Z.max flvi flvj) ->
  fHam (state (UpdateHam (state (SetEps flvi flvj val phase s)))) a b =
    fHam (state (UpdateHam s)) a b.
Proof.
  intros Hab Hb Hne.
  rewrite !UpdateHam_upper by assumption.
  destruct (SetEps_keeps flvi flvj val phase s) as (H1 & H2 & H3 & H4 & H5).
  assert (He : fEps (state (SetEps flvi flvj val phase s)) a b = fEps s a b).
  { rewrite SetEps_fEps_at. destruct (rejected _ _); [reflexivity |].
    apply mset_neq, Hne. }
  unfold lv_of, kr2GNe_of. rewrite H1, H3, H4, H5, He. reflexivity.
Qed.

Lemma append_empty_iff (a b : string) :
  (a ++ b)%string = EmptyString <-> a = EmptyString /\ b = EmptyString.
Proof.
  destruct a; simpl.
  - split; [intros ->; split; reflexivity | intros [_ ->]; reflexivity].
  - split; [intros E; discriminate E | intros [E _]; discriminate E].
Qed.

(** X11. A message goes to [cout] exactly when the pair is reversed or
    out of range: [SetEps] and [GetEps] print nothing if and only if
    [0 <= flvi <= flvj <= 2].  [SetNSI] and [UpdateHam] never print. *)
Theorem reports_exactly_bad_pairs (s : PMNS_NSI D) (flvi flvj : Z)
        (val phase : D) :
  (output (SetEps flvi flvj val phase s) = EmptyString
     <-> 0 <= flvi <= flvj /\ flvj <= 2) /\
  (output (GetEps flvi flvj s) = EmptyString
     <-> 0 <= flvi <= flvj /\ flvj <= 2) /\
  (forall ee emu etau mumu mutau tautau demu detau dmutau,
      output (SetNSI ee emu etau mumu mutau tautau demu detau dmutau s)
      = EmptyString) /\
  output (UpdateHam s) = EmptyString.
Proof.
  assert (Hswap : output (swap_if_reversed flvi flvj s) = EmptyString
                  <-> flvi <= flvj).
  { unfold swap_if_reversed.
    destruct (Z.gtb_spec flvi flvj) as [Hgt | Hle]; cbn.
    - split; [intros E; discriminate E | lia].
    - split; [lia | reflexivity]. }
  assert (Hmin : flvi <= flvj -> Z.min flvi flvj = flvi) by lia.
  assert (Hmax : flvi <= flvj -> Z.max flvi flvj = flvj) by lia.
  split; [| split; [| split]].
  - unfold SetEps. rewrite output_bind, swap_state, swap_result.
    rewrite append_empty_iff, Hswap.
    split.
    + intros [Hle Hrest]. rewrite Hmin, Hmax in Hrest by assumption.
      destruct (rejected flvi flvj) eqn:Hrej.
      * cbn in Hrest. discriminate Hrest.
      * apply rejected_false_iff in Hrej. lia.
    + intros Hok. split; [lia |]. rewrite Hmin, Hmax by lia.
      apply rejected_false_iff in Hok. rewrite Hok. reflexivity.
  - unfold GetEps. rewrite output_bind, swap_state, swap_result.
    rewrite append_empty_iff, Hswap.
    split.
    + intros [Hle Hrest]. rewrite Hmin, Hmax in Hrest by assumption.
      destruct (rejected flvi flvj) eqn:Hrej.
      * cbn in Hrest. discriminate Hrest.
      * apply rejected_false_iff in Hrej. lia.
    + intros Hok. split; [lia |]. rewrite Hmin, Hmax by lia.
      apply rejected_false_iff in Hok. rewrite Hok. reflexivity.
  - intros. reflexivity.
  - rewrite UpdateHam_unrolled. reflexivity.
Qed.

End MoreTraces.

(** ** The store and the Hamiltonian over the real numbers *)

Section MoreR.
Context {P : PhysConst R}.

Local Open Scope Z_scope.
Local Open Scope R_scope.
Local Open Scope cmd_scope.

Lemma c_eqb_R_refl (z : complex R) : c_eqb z z = true.
Proof.
  unfold c_eqb; simpl.
  destruct (Req_dec_T (real z) (real z)); [| contradiction].
  destruct (Req_dec_T (imag z) (imag z)); [reflexivity | contradiction].
Qed.

(** X12. [SetNSI] and [GetEps] round trip: after [SetNSI] the six
    coefficients read back as [eps_ee + 1], [eps_mumu], [eps_tautau]
    and [eps * (cos delta + i sin delta)] for the three pairs off the
    diagonal; no write of the sequence disturbs another. *)
Theorem SetNSI_round_trip (s : PMNS_NSI R)
        (eps_ee eps_emu eps_etau eps_mumu eps_mutau eps_tautau
         delta_emu delta_etau delta_mutau : R) :
  let s' := state (SetNSI eps_ee eps_emu eps_etau eps_mumu eps_mutau
                          eps_tautau delta_emu delta_etau delta_mutau s) in
  result (GetEps 0 0 s') = Cplx (eps_ee + 1) 0 /\
  result (GetEps 1 1 s') = Cplx eps_mumu 0 /\
  result (GetEps 2 2 s') = Cplx eps_tautau 0 /\
  result (GetEps 0 1 s') =
    Cplx (eps_emu * cos delta_emu) (eps_emu * sin delta_emu) /\
  result (GetEps 0 2 s') =
    Cplx (eps_etau * cos delta_etau) (eps_etau * sin delta_etau) /\
  result (GetEps 1 2 s') =
    Cplx (eps_mutau * cos delta_mutau) (eps_mutau * sin delta_mutau).
Proof.
  intros s'. unfold s'.
  rewrite !GetEps_result, !SetNSI_fEps. unfold mset; simpl.
  rewrite !eps_value_diag, !eps_value_offdiag by discriminate. simpl.
  repeat split.
Qed.

(** X13. Over the real numbers a setter called again with the same
    arguments changes nothing: the second [SetEps], and the second
    [SetNSI], leaves [fGotES] and every coefficient as the first left
    them. *)
Theorem repeated_setter_is_noop (s : PMNS_NSI R) (flvi flvj : Z)
        (val phase : R)
        (eps_ee eps_emu eps_etau eps_mumu eps_mutau eps_tautau
         delta_emu delta_etau delta_mutau : R) :
  let s1 := state (SetEps flvi flvj val phase s) in
  let n1 := state (SetNSI eps_ee eps_emu eps_etau eps_mumu eps_mutau
                          eps_tautau delta_emu delta_etau delta_mutau s) in
  let n2 := state (SetNSI eps_ee eps_emu eps_etau eps_mumu eps_mutau
                          eps_tautau delta_emu delta_etau delta_mutau n1) in
  (fGotES (state (SetEps flvi flvj val phase s1)) = fGotES s1 /\
   forall a b, fEps (state (SetEps flvi flvj val phase s1)) a b
               = fEps s1 a b) /\
  (fGotES n2 = fGotES n1 /\ forall a b, fEps n2 a b = fEps n1 a b).
Proof.
  intros s1 n1 n2. split.
  - assert (Hrej : rejected (Z.min flvi flvj) (Z.max flvi flvj) = false ->
                   fEps s1 (Z.min flvi flvj) (Z.max flvi flvj) =
                     eps_value (Z.min flvi flvj) (Z.max flvi flvj) val phase).
    { intros Hok. unfold s1. rewrite SetEps_fEps_at, Hok. apply mset_eq. }
    split.
    + rewrite SetEps_state. cbv zeta.
      destruct (rejected _ _) eqn:Hok; [reflexivity |]. simpl.
      rewrite Hrej by reflexivity. rewrite c_eqb_R_refl. apply andb_true_r.
    + intros a b. rewrite SetEps_fEps_at.
      destruct (rejected _ _) eqn:Hok; [reflexivity |].
      unfold mset.
      destruct (Z.eqb_spec a (Z.min flvi flvj)) as [-> |]; [| reflexivity].
      destruct (Z.eqb_spec b (Z.max flvi flvj)) as [-> |]; [| reflexivity].
      simpl. symmetry. apply Hrej. reflexivity.
  - split.
    + unfold n2. rewrite SetNSI_fGotES. unfold n1. rewrite !SetNSI_fEps.
      unfold mset; simpl. rewrite !c_eqb_R_refl, !andb_true_r.
      reflexivity.
    + intros a b. unfold n2. rewrite SetNSI_fEps.
      unfold n1. rewrite !SetNSI_fEps. unfold mset.
      repeat match goal with
        | |- context [((a =? ?i)%Z && (b =? ?j)%Z)%bool] =>
            destruct ((a =? i)%Z && (b =? j)%Z)%bool
        end; reflexivity.
Qed.

(** X14. A freshly constructed object has [fGotES] false, whatever the
    base-class constructor left there: the constructor's [SetNSI] finds
    0 where it stores [0 + 1].  The inherited fields are as the base
    class left them and nothing is printed. *)
Theorem fresh_object_is_dirty (inherited : PMNS_NSI R) :
  let r := new_PMNS_NSI inherited in
  fGotES (state r) = false /\
  output r = EmptyString /\
  fHms (state r) = fHms inherited /\ fHam (state r) = fHam inherited /\
  fPath (state r) = fPath inherited /\
  fEnergy (state r) = fEnergy inherited /\
  fIsNuBar (state r) = fIsNuBar inherited.
Proof.
  intros r. unfold r, new_PMNS_NSI.
  split; [| repeat split].
  rewrite SetNSI_fGotES. simpl fEps.
  assert (Hne : c_eqb (Cplx 0 0) (eps_value 0 0 0 0) = false).
  { rewrite eps_value_diag. unfold c_eqb; simpl.
    destruct (Req_dec_T 0 (0 + 1)) as [E | _]; [lra | reflexivity]. }
  simpl d_zero. rewrite Hne, andb_false_r. reflexivity.
Qed.

(** X17. In vacuum (density 0 or electron fraction 0) the Hamiltonian
    of antineutrinos is the complex conjugate of that of neutrinos,
    entry by entry on and above the diagonal, whatever the NSI
    coefficients are. *)
Theorem vacuum_antineutrino_is_conjugate (s_nu s_bar : PMNS_NSI R)
        (i j : Z) :
  fHms s_bar = fHms s_nu -> fEps s_bar = fEps s_nu ->
  fPath s_bar = fPath s_nu -> fEnergy s_bar = fEnergy s_nu ->
  fIsNuBar s_nu = false -> fIsNuBar s_bar = true ->
  density (fPath s_nu) = 0 \/ zoa (fPath s_nu) = 0 ->
  (0 <= i <= j)%Z -> (j <= 2)%Z ->
  fHam (state (UpdateHam s_bar)) i j =
    conj (fHam (state (UpdateHam s_nu)) i j).
Proof.
  intros Hhms Heps Hpath Hen Hnu Hbar Hvac Hij Hj.
  rewrite !UpdateHam_upper by assumption.
  rewrite Hnu, Hbar. simpl negb. cbv iota.
  assert (Hk : kr2GNe_of s_nu = 0).
  { rewrite kr2GNe_of_R. destruct Hvac as [-> | ->]; ring. }
  assert (Hk' : kr2GNe_of s_bar = 0).
  { rewrite kr2GNe_of_R, Hpath. destruct Hvac as [-> | ->]; ring. }
  rewrite Hk, Hk', !lv_of_R, Hhms, Heps, Hen.
  unfold conj, c_sub, c_add, c_div_d, d_mul_c; simpl.
  f_equal; [| f_equal]; ring.
Qed.

End MoreR.

(** ** Objects reachable from the constructor *)

Section Reachable.
Context {D : Type} {Ops : Double D} {Consts : PhysConst D}.

Local Open Scope Z_scope.

(** A coefficient built for a diagonal pair has imaginary part zero. *)
Lemma eps_value_diag_imag (i : Z) (val phase : D) :
  imag (eps_value i i val phase) = d_zero.
Proof.
  unfold eps_value. rewrite Z.eqb_refl. simpl.
  destruct (i =? 0); reflexivity.
Qed.

(** No sequence of calls gives a diagonal coefficient an imaginary
    part. *)
Lemma run_trace_diag_imag (t : list (Call D)) (s : PMNS_NSI D) :
  (forall i, imag (fEps s i i) = d_zero) ->
  forall i, imag (fEps (state (run_trace t s)) i i) = d_zero.
Proof.
  revert t s.
  apply (run_trace_rel
    (fun s s' => (forall i, imag (fEps s i i) = d_zero) ->
                 forall i, imag (fEps s' i i) = d_zero)).
  - intros s Hs. exact Hs.
  - intros s1 s2 s3 H12 H23 Hs. apply H23, H12, Hs.
  - intros a b v p s Hs i. rewrite SetEps_fEps_at.
    destruct (rejected _ _); [apply Hs |].
    unfold mset.
    destruct (Z.eqb_spec i (Z.min a b)) as [E1 |]; [| apply Hs].
    destruct (Z.eqb_spec i (Z.max a b)) as [E2 |]; [| apply Hs].
    simpl. rewrite <- E1, <- E2. apply eps_value_diag_imag.
  - intros s Hs i.
    destruct (UpdateHam_frame s) as (_ & -> & _). apply Hs.
Qed.

(** The constructor followed by a sequence of calls is a sequence of
    calls on the object with its coefficients zeroed. *)
Lemma new_then_trace (inherited : PMNS_NSI D) (t : list (Call D)) :
  state (run_trace t (state (new_PMNS_NSI inherited))) =
    state (run_trace
             (CallSetNSI d_zero d_zero d_zero d_zero d_zero d_zero
                         d_zero d_zero d_zero :: t)
             (set_fEps (fun _ _ => Cplx d_zero d_zero) inherited)).
Proof. simpl run_trace. rewrite state_bind. reflexivity. Qed.

(** X15. In every object reached from the constructor by calls of the
    methods, the diagonal coefficients have imaginary part exactly
    zero, whatever values and phases were passed: for every [i],
    [GetEps(i, i)] returns a number whose imaginary part is the [0.]
    that [complex h = val] put there (or that of [zero] when [i] is out
    of range).  This holds in every arithmetic of [double]. *)
Theorem reachable_diagonal_is_real (inherited : PMNS_NSI D)
        (t : list (Call D)) (i : Z) :
  let s := state (run_trace t (state (new_PMNS_NSI inherited))) in
  imag (result (GetEps i i s)) = d_zero.
Proof.
  intros s.
  assert (Heps : imag (fEps s i i) = d_zero).
  { unfold s. rewrite new_then_trace.
    apply run_trace_diag_imag. intros k. reflexivity. }
  rewrite GetEps_result. cbv zeta.
  rewrite Z.min_id, Z.max_id.
  destruct (rejected i i); [reflexivity | exact Heps].
Qed.

End Reachable.

(** ** NaN in binary64 *)

Section Binary64NaN.
Import PrimFloat FloatOps FloatAxioms SpecFloat.
Variables fcos fsin : float -> float.

Let F64 : Double float := Double_binary64 fcos fsin.

(** Nothing compares equal to NaN. *)
Lemma eqb_nan_r (x : float) : PrimFloat.eqb x nan = false.
Proof.
  rewrite eqb_spec.
  replace (Prim2SF nan) with S754_nan by reflexivity.
  unfold SFeqb. destruct (Prim2SF x); reflexivity.
Qed.

(** X18. In binary64 a NaN given for a diagonal parameter always clears
    [fGotES], also when the call is repeated with the same arguments:
    the value built is NaN, and [==] is false on NaN.  [GetEps] then
    returns a NaN real part. *)
Theorem binary64_NaN_clears_flag (s : PMNS_NSI float) (i : Z)
        (phase : float) :
  (0 <= i <= 2)%Z ->
  let s1 := state (SetEps (Ops := F64) i i nan phase s) in
  fGotES s1 = false /\
  fGotES (state (SetEps (Ops := F64) i i nan phase s1)) = false /\
  is_nan (real (result (GetEps (Ops := F64) i i s1))) = true.
Proof.
  intros Hi.
  assert (Hok : rejected i i = false) by (apply rejected_false_iff; lia).
  assert (Hh : real (eps_value (Ops := F64) i i nan phase) = nan).
  { unfold eps_value. rewrite Z.eqb_refl. simpl.
    destruct (i =? 0)%Z; reflexivity. }
  assert (Hclear : forall s0,
             fGotES (state (SetEps (Ops := F64) i i nan phase s0)) = false).
  { intros s0. rewrite SetEps_state. cbv zeta.
    rewrite Z.min_id, Z.max_id, Hok. simpl fGotES.
    unfold c_eqb. rewrite Hh.
    change (d_eqb (real (fEps s0 i i)) nan)
      with (PrimFloat.eqb (real (fEps s0 i i)) nan).
    rewrite eqb_nan_r. simpl. apply andb_false_r. }
  cbv zeta. split; [apply Hclear | split; [apply Hclear |]].
  rewrite GetEps_result. cbv zeta.
  rewrite Z.min_id, Z.max_id, Hok.
  rewrite SetEps_fEps_at, Z.min_id, Z.max_id, Hok, mset_eq, Hh.
  reflexivity.
Qed.

End Binary64NaN.

(** ** The further properties at the sample objects *)

Lemma SetEps_frame_witness :
  (1, 2)%Z <> (Z.min 0 1, Z.max 0 1) /\
  fEps (state (SetEps 0 1 2%R 0%R sample_obj)) 1%Z 2%Z =
    fEps sample_obj 1%Z 2%Z.
Proof.
  assert (Hne : (1, 2)%Z <> (Z.min 0 1, Z.max 0 1))
    by (intros E; discriminate E).
  split; [exact Hne |].
  exact (proj1 (@SetEps_frame R Double_R sample_obj 0%Z 1%Z 2%R 0%R
                  1%Z 2%Z Hne)).
Defined.

Lemma GetEps_other_pair_witness :
  (Z.min 1 2, Z.max 1 2) <> (Z.min 1 0, Z.max 1 0) /\
  result (GetEps 1 2 (state (SetEps 1 0 2%R 0%R sample_obj))) =
    result (GetEps 1 2 sample_obj).
Proof.
  assert (Hne : (Z.min 1 2, Z.max 1 2) <> (Z.min 1 0, Z.max 1 0))
    by (intros E; discriminate E).
  split; [exact Hne |].
  exact (@GetEps_other_pair R Double_R sample_obj 1%Z 0%Z 2%R 0%R
           1%Z 2%Z Hne).
Defined.

Lemma SetEps_commute_witness :
  (Z.min 0 1, Z.max 0 1) <> (Z.min 2 1, Z.max 2 1) /\
  fGotES (state (SetEps 2 1 3%R 1%R
                   (state (SetEps 0 1 2%R 0%R sample_solved)))) =
    fGotES (state (SetEps 0 1 2%R 0%R
                     (state (SetEps 2 1 3%R 1%R sample_solved)))).
Proof.
  assert (Hne : (Z.min 0 1, Z.max 0 1) <> (Z.min 2 1, Z.max 2 1))
    by (intros E; discriminate E).
  split; [exact Hne |].
  exact (proj1 (proj2 (@SetEps_commute R Double_R sample_solved
                         0%Z 1%Z 2%Z 1%Z 2%R 0%R 3%R 1%R Hne))).
Defined.

Lemma fHam_waits_for_UpdateHam_witness :
  ~ In CallUpdateHam
       [CallSetEps_ee 1%R; CallGetEps 0 1; CallSetEps 2 0 1%R 1%R] /\
  fHam (state (run_trace (Consts := sample_const)
                 [CallSetEps_ee 1%R; CallGetEps 0 1; CallSetEps 2 0 1%R 1%R]
                 sample_obj)) = fHam sample_obj.
Proof.
  assert (Hno : ~ In CallUpdateHam
                    [CallSetEps_ee 1%R; CallGetEps 0 1;
                     CallSetEps 2 0 1%R 1%R]).
  { simpl. intros [E | [E | [E | []]]]; discriminate E. }
  split; [exact Hno |].
  exact (@fHam_waits_for_UpdateHam R Double_R sample_const _ sample_obj Hno).
Defined.

Lemma UpdateHam_entry_local_witness :
  fHam (state (UpdateHam (Consts := sample_const)
                 (state (SetEps 1 2 1%R 0%R sample_obj)))) 0%Z 0%Z =
    fHam (state (UpdateHam (Consts := sample_const) sample_obj)) 0%Z 0%Z.
Proof.
  exact (@UpdateHam_entry_local R Double_R sample_const sample_obj
           (state (SetEps 1 2 1%R 0%R sample_obj)) 0%Z 0%Z
           ltac:(lia) ltac:(lia) eq_refl eq_refl eq_refl eq_refl eq_refl).
Defined.

Lemma SetEps_moves_one_entry_witness :
  (0, 0)%Z <> (Z.min 0 1, Z.max 0 1) /\
  fHam (state (UpdateHam (Consts := sample_const)
                 (state (SetEps 0 1 2%R 1%R sample_obj)))) 0%Z 0%Z =
    fHam (state (UpdateHam (Consts := sample_const) sample_obj)) 0%Z 0%Z.
Proof.
  assert (Hne : (0, 0)%Z <> (Z.min 0 1, Z.max 0 1))
    by (intros E; discriminate E).
  split; [exact Hne |].
  exact (@SetEps_moves_one_entry R Double_R sample_const sample_obj
           0%Z 1%Z 2%R 1%R 0%Z 0%Z ltac:(lia) ltac:(lia) Hne).
Defined.

Lemma vacuum_antineutrino_is_conjugate_witness :
  density (fPath sample_vacuum) = 0%R /\
  fHam (state (UpdateHam (Consts := sample_const) sample_vacuum_bar))
       0%Z 1%Z =
    conj (fHam (state (UpdateHam (Consts := sample_const) sample_vacuum))
               0%Z 1%Z).
Proof.
  split; [reflexivity |].
  exact (@vacuum_antineutrino_is_conjugate sample_const
           sample_vacuum sample_vacuum_bar 0%Z 1%Z
           eq_refl eq_refl eq_refl eq_refl eq_refl eq_refl
           (or_introl eq_refl) ltac:(lia) ltac:(lia)).
Defined.

Section Binary64NaNSample.
Import PrimFloat.

Lemma binary64_NaN_clears_flag_witness :
  fGotES sample_obj64 = true /\
  fGotES (state (SetEps (Ops := Double_binary64 (fun x => x) (fun x => x))
                   1 1 nan 0%float sample_obj64)) = false.
Proof.
  split; [reflexivity |].
  exact (proj1 (@binary64_NaN_clears_flag (fun x => x) (fun x => x)
                  sample_obj64 1%Z 0%float ltac:(lia))).
Defined.

End Binary64NaNSample.
